(** * Batch generator of Kubernetes jobs: model and properties

    A shallow embedding of [motion_regression_batch/generate_bunch_jobs.py]:
    the combination enumerator, the placeholder substitution, the naming of
    generated documents, and the batch loop that writes, submits and cleans
    up documents, with the file system, the printed output and the external
    submission tool as explicit state.

    Python strings are modelled as [string] (sequences of bytes: on UTF-8
    text, search, replacement and comparison by bytes agree with Python's
    by code points).  A Python [dict] is an association list in insertion
    order whose keys are pairwise distinct. *)

From stdpp Require Import base strings list gmap sorting.
From Stdlib Require Import ZArith Ascii DecimalString.

Local Open Scope nat_scope.

(** ** Python values and strings *)

(** The scalars a YAML document yields that have an exact string form. *)
Inductive value : Type :=
  | VInt (z : Z)
  | VStr (s : string)
  | VBool (b : bool)
  | VNone.

(** Python's [str(value)]. *)
Definition str (v : value) : string :=
  match v with
  | VInt z => NilZero.string_of_int (Z.to_int z)
  | VStr s => s
  | VBool true => "True"
  | VBool false => "False"
  | VNone => "None"
  end.

(** Python's [==] on scalars: [bool] is a subtype of [int], so [True == 1]
    and [False == 0]. *)
Definition value_eqb (v1 v2 : value) : bool :=
  match v1, v2 with
  | VInt a, VInt b => bool_decide (a = b)
  | VInt a, VBool b | VBool b, VInt a => bool_decide (a = Z.b2z b)
  | VBool a, VBool b => bool_decide (a = b)
  | VStr a, VStr b => bool_decide (a = b)
  | VNone, VNone => true
  | _, _ => false
  end.

(** A [dict] from names to values. *)
Abbreviation dict := (list (string * value)).

(** [d.get(k)] *)
Fixpoint dict_get (d : dict) (k : string) : option value :=
  match d with
  | [] => None
  | (k', v) :: d' => if decide (k' = k) then Some v else dict_get d' k
  end.

(** [d[k] = v]: an existing key keeps its position. *)
Fixpoint dict_set (d : dict) (k : string) (v : value) : dict :=
  match d with
  | [] => [(k, v)]
  | (k', v') :: d' =>
      if decide (k' = k) then (k, v) :: d' else (k', v') :: dict_set d' k v
  end.

(** [dict(pairs)] *)
Definition dict_of_pairs (pairs : list (string * value)) : dict :=
  fold_left (λ d kv, dict_set d kv.1 kv.2) pairs [].

(** Python's [d1 == d2] on dicts: the same number of entries, and every key of
    [d1] is bound in [d2] to an equal value. *)
Definition dict_eqb (d1 d2 : dict) : bool :=
  bool_decide (length d1 = length d2) &&
  forallb (λ kv, match dict_get d2 kv.1 with
                 | Some v' => value_eqb kv.2 v'
                 | None => false
                 end) d1.

(** [s.replace(old, new)] for a non-empty [old]: the scan goes left to right;
    [skip] counts the characters of a match that are still to be passed
    over, so matches do not overlap and the inserted text is not scanned. *)
Fixpoint replace_from (old new : string) (skip : nat) (s : string) : string :=
  match s with
  | "" => ""
  | String c s' =>
      match skip with
      | S n => replace_from old new n s'
      | 0 =>
          if String.prefix old s
          then new +:+ replace_from old new (String.length old - 1) s'
          else String c (replace_from old new 0 s')
      end
  end.

(** [s.replace("", new)]: [new] before every character and at the end. *)
Fixpoint intersperse (new s : string) : string :=
  match s with
  | "" => new
  | String c s' => new +:+ String c (intersperse new s')
  end.

Definition str_replace (s old new : string) : string :=
  match old with
  | "" => intersperse new s
  | _ => replace_from old new 0 s
  end.

(** [sub in s] *)
Fixpoint str_contains (s sub : string) : bool :=
  String.prefix sub s ||
  match s with
  | "" => false
  | String _ s' => str_contains s' sub
  end.

(** [c in s] for a character. *)
Fixpoint has_char (c : ascii) (s : string) : bool :=
  match s with
  | "" => false
  | String c' s' => bool_decide (c' = c) || has_char c s'
  end.

(** ** itertools.product *)

(** One round of the documented equivalent of [itertools.product]:
    [result = [x + [y] for x in result for y in pool]]. *)
Definition product_step {A} (result : list (list A)) (pool : list A) : list (list A) :=
  x ← result; y ← pool; [x ++ [y]].

(** [itertools.product] applied to the pools: [result = [[]]], then one round
    per pool. *)
Definition product {A} (pools : list (list A)) : list (list A) :=
  fold_left product_step pools [[]].

(** ** The combination enumerator *)

Abbreviation variable_options := (list (string * list value)).

Definition create_variable_combinations (variable_options : variable_options)
    : list dict :=
  let var_names := variable_options.*1 in
  let var_values := variable_options.*2 in
  (λ combination, dict_of_pairs (zip var_names combination)) <$> product var_values.

(** ** Placeholder substitution *)

(** [f"$({var_name})"] *)
Definition placeholder (var_name : string) : string := "$(" +:+ var_name +:+ ")".

Definition substitute_variables (template_content : string) (variables : dict)
    : string :=
  fold_left
    (λ result kv, str_replace result (placeholder kv.1) (str kv.2))
    variables template_content.

(** ** The process state and the external world *)

Inductive exn : Type :=
  | FileNotFoundError (msg : string)
  | OSError (msg : string)
  | CalledProcessError (stderr : string)
  | AttributeError (msg : string)
  | Exception (msg : string)
  | SystemExit (code : nat).

(** [except Exception] catches every exception of the model but [SystemExit]. *)
Definition is_Exception (e : exn) : bool :=
  match e with SystemExit _ => false | _ => true end.

(** [f"{e}"]; the text of an operating-system error is abstracted to the
    path it is about. *)
Definition exn_str (e : exn) : string :=
  match e with
  | FileNotFoundError msg | OSError msg | AttributeError msg | Exception msg => msg
  | CalledProcessError stderr => stderr
  | SystemExit _ => ""
  end.

(** What one [print] call writes, with the data its f-string interpolates
    ([SubmitOutput] and [SubmitError] hold the streams of the tool, which the
    program prints stripped of surrounding white space). *)
Inductive event : Type :=
  | Here
  | ErrorLoadingVariables (e : exn)
  | DryRunMode
  | DryTemplateFile (template_file : string)
  | DryVariableOptions (options : variable_options)
  | DryTotalCombinations (n : nat)
  | DryHeading
  | DryCombination (i : nat) (combo : dict)
  | FilesAvailableIn (output_dir : string)
  | Generating (n : nat)
  | JobHeader (i n : nat)
  | JobVariables (variables : dict)
  | Generated (job_file_path : string)
  | CleanedUp (job_file_path : string)
  | ErrorGeneratingJob (i : nat) (e : exn)
  | SummaryHeader
  | SummaryGenerated (n : nat)
  | SummarySubmitted (n : nat)
  | SummaryFailed (n : Z)
  | Submitted (job_file_path : string)
  | SubmitOutput (stdout : string)
  | SubmitFailed (job_file_path : string)
  | SubmitError (stderr : string)
  | KubectlNotFound.

Inductive file : Type :=
  | Text (content : string)
  | Unreadable.

(** The file system, the record of what the process did to the outside, and
    the two counters of [generate_and_submit_batch]. *)
Record state : Type := State {
  files : gmap string file;
  dirs : gset string;
  kubectl_log : list string;
  stdout : list event;
  generated_files : list string;
  successful_submissions : nat;
}.

(** How one run of [kubectl create -f path] ends. *)
Inductive run_result : Type :=
  | Completed (stdout : string)
  | ExitNonZero (stderr : string)
  | NotInstalled
  | SpawnFailed.

(** What the YAML parser makes of a text it accepts: a mapping from names to
    lists of scalars, or some other document, which has no [keys]. *)
Inductive yaml_document : Type :=
  | Mapping (options : variable_options)
  | NotAMapping.

(** The collaborators outside the program: [pathlib]'s join followed by
    [str], what the operating system allows, the YAML parser (none on a
    text it rejects), and the submission tool, whose answer may depend on
    how many times it was run before. *)
Record os_env : Type := OsEnv {
  joinpath : string → string → string;
  mkdir_allowed : string → bool;
  writable : string → bool;
  removable : string → bool;
  yaml_safe_load : string → option yaml_document;
  kubectl : nat → string → run_result;
}.

(** ** A state and exception monad *)

Inductive result (A : Type) : Type :=
  | Ok (a : A)
  | Raise (e : exn).
Arguments Ok {A} a.
Arguments Raise {A} e.

Definition io (A : Type) : Type := state → result A * state.

Global Instance io_ret : MRet io := λ A a s, (Ok a, s).

Global Instance io_bind : MBind io := λ A B k m s,
  match m s with
  | (Ok a, s') => k a s'
  | (Raise e, s') => (Raise e, s')
  end.

Global Instance io_throw : MThrow exn io := λ A e s, (Raise e, s).

(** [try: body / except ...]: [handlers e] is the clause that catches [e],
    if one does. *)
Definition try_except {A} (body : io A) (handlers : exn → option (io A)) : io A :=
  λ s, match body s with
       | (Raise e, s') =>
           match handlers e with
           | Some handler => handler s'
           | None => (Raise e, s')
           end
       | r => r
       end.

(** [for i, x in enumerate(l, i0): body] *)
Fixpoint for_enumerate {A} (i0 : nat) (l : list A) (body : nat → A → io unit)
    : io unit :=
  match l with
  | [] => mret ()
  | x :: l' => body i0 x;; for_enumerate (S i0) l' body
  end.

(** *** Primitive effects *)

(** The state after the lines [events] were printed. *)
Definition emit (events : list event) (s : state) : state :=
  State (files s) (dirs s) (kubectl_log s) (stdout s ++ events)
        (generated_files s) (successful_submissions s).

Definition print (e : event) : io unit := λ s, (Ok (), emit [e] s).

(** The state after [kubectl] was run on [path]. *)
Definition record_run (path : string) (s : state) : state :=
  State (files s) (dirs s) (kubectl_log s ++ [path]) (stdout s)
        (generated_files s) (successful_submissions s).

(** The state after [generated_files.append(path)]. *)
Definition add_generated (path : string) (s : state) : state :=
  State (files s) (dirs s) (kubectl_log s) (stdout s)
        (generated_files s ++ [path]) (successful_submissions s).

(** The state after [successful_submissions += 1]. *)
Definition add_success (s : state) : state :=
  State (files s) (dirs s) (kubectl_log s) (stdout s)
        (generated_files s) (successful_submissions s + 1).

Definition set_files (f : gmap string file) (s : state) : state :=
  State f (dirs s) (kubectl_log s) (stdout s)
        (generated_files s) (successful_submissions s).

(** The state after the directory [path] was created. *)
Definition add_dir (path : string) (s : state) : state :=
  State (files s) ({[path]} ∪ dirs s) (kubectl_log s) (stdout s)
        (generated_files s) (successful_submissions s).

(** [open(path, 'r').read()] *)
Definition read_file (path : string) : io string :=
  λ s, match files s !! path with
       | Some (Text content) => (Ok content, s)
       | Some Unreadable => (Raise (OSError path), s)
       | None => (Raise (FileNotFoundError path), s)
       end.

(** [open(path, 'w').write(content)] *)
Definition write_file (E : os_env) (path content : string) : io unit :=
  λ s, if writable E path
       then (Ok (), set_files (<[path := Text content]> (files s)) s)
       else (Raise (OSError path), s).

(** [os.remove(path)] *)
Definition os_remove (E : os_env) (path : string) : io unit :=
  λ s, match files s !! path with
       | None => (Raise (FileNotFoundError path), s)
       | Some _ =>
           if removable E path
           then (Ok (), set_files (delete path (files s)) s)
           else (Raise (OSError path), s)
       end.

(** [Path(path).mkdir(exist_ok=True)] *)
Definition mkdir_exist_ok (E : os_env) (path : string) : io unit :=
  λ s, if decide (path ∈ dirs s) then (Ok (), s)
       else if mkdir_allowed E path
       then (Ok (), add_dir path s)
       else (Raise (OSError path), s).

(** [subprocess.run(['kubectl', 'create', '-f', path], capture_output=True,
    text=True, check=True)]: the attempt is recorded, and every ending but a
    zero exit status raises. *)
Definition subprocess_run (E : os_env) (path : string) : io string :=
  λ s,
    match kubectl E (length (kubectl_log s)) path with
    | Completed out => (Ok out, record_run path s)
    | ExitNonZero err => (Raise (CalledProcessError err), record_run path s)
    | NotInstalled => (Raise (FileNotFoundError "kubectl"), record_run path s)
    | SpawnFailed => (Raise (OSError "kubectl"), record_run path s)
    end.

(** ** KubernetesJobGenerator *)

Record KubernetesJobGenerator : Type := Generator {
  template_file : string;
  output_dir : string;
}.

(** [__init__] *)
Definition init (E : os_env) (template_file output_dir : string)
    : io KubernetesJobGenerator :=
  mkdir_exist_ok E output_dir;;
  mret (Generator template_file output_dir).

Definition load_template (self : KubernetesJobGenerator) : io string :=
  try_except (read_file (template_file self))
    (λ e, match e with
          | FileNotFoundError _ =>
              Some (mthrow (FileNotFoundError
                      ("Template file '" +:+ template_file self +:+ "' not found")))
          | _ =>
              if is_Exception e
              then Some (mthrow (Exception ("Error reading template file: " +:+ exn_str e)))
              else None
          end).

(** The comparison [sorted] makes on the items of a dict: keys are pairwise
    distinct, so the order of two items is the order of their keys. *)
Definition item_le (x y : string * value) : Prop := String.le x.1 y.1.

Global Instance item_le_dec : RelDecision item_le.
Proof. intros x y. unfold item_le. apply _. Defined.

Global Instance item_le_trans : Transitive item_le.
Proof. intros x y z. unfold item_le. apply transitivity. Qed.

Global Instance item_le_total : Total item_le.
Proof. intros x y. unfold item_le. apply total, _. Qed.

(** [sorted(variables.items())] *)
Definition sorted_items (variables : dict) : list (string * value) :=
  merge_sort item_le variables.

(** The file name [generate_job_file] gives the document. *)
Definition job_filename (variables : dict) (job_name : option string) : string :=
  match job_name with
  | None =>
      let var_str :=
        String.concat "_" ((λ kv, kv.1 +:+ "_" +:+ str kv.2) <$> sorted_items variables) in
      "job_" +:+ var_str +:+ ".yaml"
  | Some job_name => job_name +:+ ".yaml"
  end.

Definition generate_job_file (E : os_env) (self : KubernetesJobGenerator)
    (variables : dict) (job_name : option string) : io string :=
  template_content ← load_template self;
  let substituted_content := substitute_variables template_content variables in
  let filename := job_filename variables job_name in
  let job_file_path := joinpath E (output_dir self) filename in
  write_file E job_file_path substituted_content;;
  mret job_file_path.

Definition submit_job (E : os_env) (self : KubernetesJobGenerator)
    (job_file_path : string) : io bool :=
  try_except
    (out ← subprocess_run E job_file_path;
     print (Submitted job_file_path);;
     print (SubmitOutput out);;
     mret true)
    (λ e, match e with
          | CalledProcessError err =>
              Some (print (SubmitFailed job_file_path);;
                    print (SubmitError err);;
                    mret false)
          | FileNotFoundError _ => Some (print KubectlNotFound;; mret false)
          | _ => None
          end).

Definition append_generated (job_file_path : string) : io unit :=
  λ s, (Ok (), add_generated job_file_path s).

Definition count_success : io unit := λ s, (Ok (), add_success s).

(** The state after [generated_files = []; successful_submissions = 0]. *)
Definition reset_counters (s : state) : state :=
  State (files s) (dirs s) (kubectl_log s) (stdout s) [] 0.

Definition init_counters : io unit := λ s, (Ok (), reset_counters s).

Definition get {A} (f : state → A) : io A := λ s, (Ok (f s), s).

Definition when (b : bool) (m : io unit) : io unit := if b then m else mret ().

(** The body of the loop of [generate_and_submit_batch] for job [i] of [n]. *)
Definition batch_body (E : os_env) (self : KubernetesJobGenerator)
    (submit_jobs cleanup : bool) (n i : nat) (variables : dict) : io unit :=
  print (JobHeader i n);;
  print (JobVariables variables);;
  try_except
    (job_file_path ← generate_job_file E self variables None;
     append_generated job_file_path;;
     print (Generated job_file_path);;
     when submit_jobs
       (ok ← submit_job E self job_file_path;
        when ok
          (count_success;;
           when cleanup
             (os_remove E job_file_path;;
              print (CleanedUp job_file_path)))))
    (λ e, if is_Exception e then Some (print (ErrorGeneratingJob i e)) else None).

Definition generate_and_submit_batch (E : os_env) (self : KubernetesJobGenerator)
    (variable_combinations : list dict) (submit_jobs cleanup : bool)
    : io (list string) :=
  init_counters;;
  print (Generating (length variable_combinations));;
  for_enumerate 1 variable_combinations
    (batch_body E self submit_jobs cleanup (length variable_combinations));;
  print SummaryHeader;;
  generated ← get generated_files;
  successful ← get successful_submissions;
  print (SummaryGenerated (length generated));;
  when submit_jobs
    (print (SummarySubmitted successful);;
     print (SummaryFailed (Z.of_nat (length generated) - Z.of_nat successful)));;
  mret generated.

(** ** The command line *)

Record args : Type := Args {
  arg_template_file : string;
  arg_variable_file : string;
  arg_output_dir : string;
  arg_no_submit : bool;
  arg_cleanup : bool;
  arg_dry_run : bool;
}.

(** [with open(args.variable_file, 'r') as f: yaml.safe_load(f)] *)
Definition load_variable_options (E : os_env) (variable_file : string)
    : io yaml_document :=
  text ← read_file variable_file;
  match yaml_safe_load E text with
  | Some document => mret document
  | None => mthrow (Exception "YAMLError")
  end.

(** What [create_variable_combinations] is given: on a document that is not
    a mapping, its call of [keys] raises. *)
Definition as_variable_options (document : yaml_document) : io variable_options :=
  match document with
  | Mapping variable_options => mret variable_options
  | NotAMapping => mthrow (AttributeError "keys")
  end.

Definition main (E : os_env) (a : args) : io unit :=
  document ←
    try_except (load_variable_options E (arg_variable_file a))
      (λ e, if is_Exception e
            then Some (print (ErrorLoadingVariables e);; mthrow (SystemExit 1))
            else None);
  variable_options ← as_variable_options document;
  let combinations := create_variable_combinations variable_options in
  if arg_dry_run a then
    print DryRunMode;;
    print (DryTemplateFile (arg_template_file a));;
    print (DryVariableOptions variable_options);;
    print (DryTotalCombinations (length combinations));;
    print DryHeading;;
    for_enumerate 1 combinations (λ i combo, print (DryCombination i combo))
  else
    generator ← init E (arg_template_file a) (arg_output_dir a);
    generate_and_submit_batch E generator combinations
      (negb (arg_no_submit a)) (arg_cleanup a);;
    when (negb (arg_no_submit a) && negb (arg_cleanup a))
      (print (FilesAvailableIn (arg_output_dir a))).

(** The exit status of the process: zero when [main] returns, the code of
    [sys.exit], and one for an exception nothing catches. *)
Definition exit_status {A} (r : result A) : nat :=
  match r with
  | Ok _ => 0
  | Raise (SystemExit code) => code
  | Raise _ => 1
  end.

(** [if __name__ == "__main__": print("here"); main()] *)
Definition script (E : os_env) (a : args) (s : state) : nat * state :=
  let '(r, s') := (print Here;; main E a) s in
  (exit_status r, s').

(** *** A concrete world for examples *)

Definition posix_join (dir name : string) : string := dir +:+ "/" +:+ name.

(** A permissive system, a parser that reads every variable file as the
    options of the scenario, and a cluster that accepts every second job. *)
Definition example_env : os_env :=
  OsEnv posix_join (λ _, true) (λ _, true) (λ _, true)
    (λ _, Some (Mapping [("a", [VInt 1; VInt 2]); ("b", [VStr "p"; VStr "q"])]))
    (λ n _, if Nat.even n then Completed "job created" else ExitNonZero "forbidden").

(** The same system with a variable file that holds the empty mapping. *)
Definition empty_options_env : os_env :=
  OsEnv posix_join (λ _, true) (λ _, true) (λ _, true) (λ _, Some (Mapping []))
    (λ _ _, Completed "job created").

(** The same system with a parser that reads the variable file
    [a: [1, '1']], whose two combinations are given the same file name, and
    a cluster that rejects the first job it is sent and accepts the later
    ones. *)
Definition colliding_env : os_env :=
  OsEnv posix_join (λ _, true) (λ _, true) (λ _, true)
    (λ text, if String.eqb text "a: [1, '1']"
             then Some (Mapping [("a", [VInt 1; VStr "1"])]) else None)
    (λ n _, match n with
            | 0 => ExitNonZero "forbidden"
            | S _ => Completed "job created"
            end).

Definition example_state : state :=
  State (<["template.yaml" := Text "x=$(a) y=$(b)"]>
           (<["variables.yaml" := Text "a: [1, 2]"]> ∅))
        ∅ [] [] [] 0.

(** The same files with that variable file. *)
Definition colliding_state : state :=
  State (<["template.yaml" := Text "x=$(a) y=$(b)"]>
           (<["variables.yaml" := Text "a: [1, '1']"]> ∅))
        ∅ [] [] [] 0.

(** Unfolds the monad, so that a computation applied to a state reduces. *)
Ltac io_unfold :=
  unfold mbind, io_bind, mret, io_ret, mthrow, io_throw, try_except, when, get
    in *.

(** ** Vocabulary of the properties *)

(** [n1 × n2 × ... × nk] for pools of sizes [n1 .. nk]. *)
Definition sizes_product {A} (pools : list (list A)) : nat :=
  foldr (λ pool n, length pool * n) 1 pools.

(** The tuple that takes element [i_j] of the [j]-th pool. *)
Fixpoint pick {A} (idx : list nat) (pools : list (list A)) : option (list A) :=
  match idx, pools with
  | [], [] => Some []
  | i :: idx', pool :: pools' =>
      x ← pool !! i; xs ← pick idx' pools'; Some (x :: xs)
  | _, _ => None
  end.

(** Its position when the last index varies fastest: the number whose digits
    are [idx] in the mixed radix given by the sizes of the pools. *)
Fixpoint rank {A} (idx : list nat) (pools : list (list A)) : nat :=
  match idx, pools with
  | i :: idx', _ :: pools' => i * sizes_product pools' + rank idx' pools'
  | _, _ => 0
  end.

(** No two positions of [l] hold elements related by [R]. *)
Definition distinct_by {A} (R : A → A → Prop) (l : list A) : Prop :=
  ∀ i j x y, i ≠ j → l !! i = Some x → l !! j = Some y → ¬ R x y.

(** Two scalars, or two dicts, that Python's [==] identifies. *)
Definition value_eq (v1 v2 : value) : Prop := value_eqb v1 v2 = true.
Definition dict_eq (d1 d2 : dict) : Prop := dict_eqb d1 d2 = true.

(** What the summary of a batch prints. *)
Definition summary (submit_jobs : bool) (s : state) : list event :=
  [SummaryHeader; SummaryGenerated (length (generated_files s))] ++
  if submit_jobs
  then [SummarySubmitted (successful_submissions s);
        SummaryFailed (Z.of_nat (length (generated_files s))
                       - Z.of_nat (successful_submissions s))]
  else [].

(** The number the summary reports as failed submissions. *)
Definition failed_submissions (s : state) : Z :=
  Z.of_nat (length (generated_files s)) - Z.of_nat (successful_submissions s).

(** The error [load_template] raises when the template file holds no
    readable text. *)
Definition template_error (template_file : string) (s : state) : exn :=
  match files s !! template_file with
  | Some Unreadable =>
      Exception ("Error reading template file: " +:+ template_file)
  | _ => FileNotFoundError ("Template file '" +:+ template_file +:+ "' not found")
  end.

(** What a batch of [n] jobs prints for the combinations [combos], numbered
    from [i], when each of them is announced and then reported with the
    error [e]. *)
Fixpoint error_reports (n : nat) (e : exn) (i : nat) (combos : list dict)
    : list event :=
  match combos with
  | [] => []
  | variables :: combos' =>
      [JobHeader i n; JobVariables variables; ErrorGeneratingJob i e]
      ++ error_reports n e (S i) combos'
  end.

(** The document [main] reads from the variable file, if it reads one, and
    the options it obtains from it, if it obtains any. *)
Definition document_loaded (E : os_env) (a : args) (s : state)
    : option yaml_document :=
  match files s !! arg_variable_file a with
  | Some (Text text) => yaml_safe_load E text
  | _ => None
  end.

Definition variable_options_loaded (E : os_env) (a : args) (s : state)
    : option variable_options :=
  match document_loaded E a s with
  | Some (Mapping variable_options) => Some variable_options
  | _ => None
  end.

(** The output directory exists or can be created. *)
Definition output_dir_ready (E : os_env) (a : args) (s : state) : bool :=
  bool_decide (arg_output_dir a ∈ dirs s) || mkdir_allowed E (arg_output_dir a).

(** The path [generate_job_file] writes the document of a combination to. *)
Definition job_file_path_of (E : os_env) (self : KubernetesJobGenerator)
    (variables : dict) : string :=
  joinpath E (output_dir self) (job_filename variables None).

(** A template seen as literal text and placeholders. *)
Inductive segment : Type :=
  | Lit (text : string)
  | Ph (name : string).

Definition render_segment (seg : segment) : string :=
  match seg with
  | Lit text => text
  | Ph name => placeholder name
  end.

(** The template string a list of segments stands for. *)
Definition render (segs : list segment) : string :=
  foldr (λ seg s, render_segment seg +:+ s) "" segs.

(** The contract of the substitution, in the words of the specification:
    every placeholder whose name the combination binds is replaced by the
    string form of its value, and every other placeholder is left as it
    is. *)
Definition expand (variables : dict) (seg : segment) : string :=
  match seg with
  | Lit text => text
  | Ph name =>
      match dict_get variables name with
      | Some v => str v
      | None => placeholder name
      end
  end.

Definition substitute_spec (segs : list segment) (variables : dict) : string :=
  foldr (λ seg s, expand variables seg +:+ s) "" segs.

(** Text that opens no placeholder, alone or before other text: it holds no
    [$(] and does not end in a dollar sign. *)
Fixpoint plain_text (s : string) : bool :=
  match s with
  | "" => true
  | String c s' =>
      (if bool_decide (c = "$"%char)
       then match s' with
            | "" => false
            | String c' _ => negb (bool_decide (c' = "("%char))
            end
       else true)
      && plain_text s'
  end.

(** Templates whose only [$(] are those of their placeholders, the names of
    which hold neither a dollar sign nor a closing parenthesis. *)
Definition wf_segment (seg : segment) : Prop :=
  match seg with
  | Lit text => plain_text text = true
  | Ph name => has_char "$" name = false ∧ has_char ")" name = false
  end.

(** The combinations whose names hold no closing parenthesis and whose
    values print as plain text. *)
Definition wf_variables (variables : dict) : Prop :=
  Forall (λ kv, has_char ")" kv.1 = false ∧ plain_text (str kv.2) = true) variables.

(** What one pass does to a well-formed template. *)
Definition pass_segment (var_name new : string) (seg : segment) : segment :=
  match seg with
  | Lit text => Lit text
  | Ph name => if decide (name = var_name) then Lit new else Ph name
  end.

(** What the passes of a combination, in mapping order, do to it. *)
Definition passes (variables : dict) (segs : list segment) : list segment :=
  fold_left (λ segs kv, pass_segment kv.1 (str kv.2) <$> segs) variables segs.

(** How many of the runs of the tool on [paths], the first of which is run
    number [n], complete with a zero status. *)
Fixpoint completed_runs (E : os_env) (n : nat) (paths : list string) : nat :=
  match paths with
  | [] => 0
  | path :: paths' =>
      (match kubectl E n path with Completed _ => 1 | _ => 0 end)
      + completed_runs E (S n) paths'
  end.

(** ** The command tokenizer ([command_yaml_switch.py]) *)

(** [c.isspace()] on ASCII: tab, line feed, vertical tab, form feed, carriage
    return, the four separators 28 to 31, and space. *)
Definition py_isspace (c : ascii) : bool :=
  let n := nat_of_ascii c in
  (9 <=? n) && (n <=? 13) || (28 <=? n) && (n <=? 32).

(** Text of ASCII characters only: on it, white space by bytes is Python's
    white space. *)
Fixpoint is_ascii (s : string) : bool :=
  match s with
  | "" => true
  | String c s' => (nat_of_ascii c <? 128) && is_ascii s'
  end.

(** No white space in [s]. *)
Fixpoint no_space (s : string) : bool :=
  match s with
  | "" => true
  | String c s' => negb (py_isspace c) && no_space s'
  end.

(** [s.split()] with no separator: the scan keeps the word read so far in
    [word] and closes it at white space; runs of white space, also at both
    ends, yield no empty word. *)
Fixpoint split_go (word : string) (s : string) : list string :=
  match s with
  | "" => match word with "" => [] | _ => [word] end
  | String c s' =>
      if py_isspace c
      then match word with
           | "" => split_go "" s'
           | _ => word :: split_go "" s'
           end
      else split_go (word +:+ String c "") s'
  end.

Definition str_split (s : string) : list string := split_go "" s.

(** [args = command.split()] *)
Definition command_args (command : string) : list string := str_split command.

(** [cmd = ' '.join(cmd_list)] *)
Definition command_line (cmd_list : list string) : string :=
  String.concat " " cmd_list.

(** A word [split] can return: not empty, ASCII, and free of white space. *)
Definition is_word (w : string) : Prop :=
  w ≠ "" ∧ is_ascii w = true ∧ no_space w = true.

Example product_order :
  product [[1; 2]; [3; 4]] = [[1; 3]; [1; 4]; [2; 3]; [2; 4]].
Proof. reflexivity. Qed.

Example scenario :
  substitute_variables "x=$(a) y=$(b)" <$>
    create_variable_combinations [("a", [VInt 1; VInt 2]); ("b", [VStr "p"; VStr "q"])]
  = ["x=1 y=p"; "x=1 y=q"; "x=2 y=p"; "x=2 y=q"].
Proof. vm_compute. reflexivity. Qed.

(** * Properties *)

(** ** The enumerator *)

Lemma bind_singleton_fmap {A B} (f : A → B) (l : list A) :
  (l ≫= λ y, [f y]) = f <$> l.
Proof. induction l as [|y l IH]; [done|]. rewrite bind_cons, IH. done. Qed.

Section product.
Context {A : Type}.
Implicit Types (pool : list A) (pools : list (list A)) (xs : list A).

Lemma product_step_fmap (result : list (list A)) pool :
  product_step result pool = result ≫= λ x, (λ y, x ++ [y]) <$> pool.
Proof.
  unfold product_step. apply list_bind_ext; [|done].
  intros x. apply bind_singleton_fmap.
Qed.

(** The rounds left to run extend every partial tuple in [acc] by every
    tuple of the remaining pools. *)
Lemma fold_product_step pools (acc : list (list A)) :
  fold_left product_step pools acc = acc ≫= λ x, (x ++.) <$> product pools.
Proof.
  unfold product. revert acc. induction pools as [|pool pools IH]; intros acc.
  - simpl. rewrite (bind_singleton_fmap (λ x, x ++ [])).
    rewrite (list_fmap_ext _ id acc); [by rewrite list_fmap_id|].
    intros _ x _. apply app_nil_r.
  - cbn [fold_left]. rewrite (IH (product_step acc pool)), (IH (product_step [[]] pool)).
    rewrite !product_step_fmap, bind_singleton.
    induction acc as [|x acc IHacc]; [done|].
    rewrite !bind_cons, bind_app, IHacc. f_equal.
    rewrite list_fmap_bind.
    clear. induction pool as [|y pool IHp]; [done|].
    rewrite !fmap_cons, !bind_cons, fmap_app, IHp. f_equal.
    simpl. rewrite <- !list_fmap_compose. apply list_fmap_ext.
    intros _ z _. simpl. by rewrite <- app_assoc.
Qed.

Lemma product_nil : product (A:=A) [] = [[]].
Proof. done. Qed.

Lemma product_cons pool pools :
  product (pool :: pools) = pool ≫= λ y, (y ::.) <$> product pools.
Proof.
  unfold product at 1. cbn [fold_left].
  rewrite fold_product_step, product_step_fmap, bind_singleton, list_fmap_bind.
  done.
Qed.
End product.

(** Positions in a concatenation of blocks of one size. *)
Lemma lookup_bind_block {A B} (f : A → list B) (l : list A) m i b y x :
  (∀ z, length (f z) = m) →
  l !! i = Some y → f y !! b = Some x →
  (l ≫= f) !! (i * m + b) = Some x.
Proof.
  intros Hm. revert i. induction l as [|z l IH]; intros i Hi Hb; [done|].
  rewrite bind_cons. destruct i as [|i]; simplify_eq/=.
  - by apply lookup_app_l_Some.
  - rewrite lookup_app_r by (rewrite Hm; lia).
    rewrite Hm. replace (m + i * m + b - m) with (i * m + b) by lia. eauto.
Qed.

Section distinct_by.
Context {A : Type} (R : A → A → Prop).

Lemma distinct_by_nil : distinct_by R [].
Proof. intros i j x y _ Hi. done. Qed.

Lemma distinct_by_cons x l :
  distinct_by R (x :: l) ↔
  (∀ y, y ∈ l → ¬ R x y ∧ ¬ R y x) ∧ distinct_by R l.
Proof.
  split.
  - intros H. split.
    + intros y [j Hj]%list_elem_of_lookup. split.
      * apply (H 0 (S j)); [lia|done..].
      * apply (H (S j) 0); [lia|done..].
    + intros i j a b Hij Hi Hj. apply (H (S i) (S j)); [lia|done..].
  - intros [Hx Hl] [|i] [|j] a b Hij Hi Hj; simplify_eq/=.
    + apply (Hx b). eapply list_elem_of_lookup_2; eauto.
    + apply (Hx a). eapply list_elem_of_lookup_2; eauto.
    + apply (Hl i j); [lia|done..].
Qed.

Lemma distinct_by_app l1 l2 :
  distinct_by R (l1 ++ l2) ↔
  distinct_by R l1 ∧ distinct_by R l2 ∧
  (∀ x y, x ∈ l1 → y ∈ l2 → ¬ R x y ∧ ¬ R y x).
Proof.
  induction l1 as [|x l1 IH]; simpl.
  - split; [intros H|intros (_ & H & _); done].
    split_and!; [apply distinct_by_nil|done|]. intros x y Hx. by apply elem_of_nil in Hx.
  - rewrite !distinct_by_cons, IH. split.
    + intros (Hx & H1 & H2 & H12). split_and!; [|done..|].
      * intros y Hy. apply Hx. set_solver.
      * intros a b [->|Ha]%elem_of_cons Hb; [apply Hx; set_solver|by apply H12].
    + intros ((Hx & H1) & H2 & H12). split_and!; [|done..|].
      * intros y [Hy|Hy]%elem_of_app; [by apply Hx|]. apply H12; set_solver.
      * intros a b Ha Hb. apply H12; set_solver.
Qed.
End distinct_by.

Lemma distinct_by_fmap {A B} (R : A → A → Prop) (R' : B → B → Prop)
    (f : A → B) (l : list A) :
  (∀ x y, x ∈ l → y ∈ l → R' (f x) (f y) → R x y) →
  distinct_by R l → distinct_by R' (f <$> l).
Proof.
  intros Hf Hl i j x' y' Hij Hi Hj HR.
  apply list_lookup_fmap_Some in Hi as (x & -> & Hi).
  apply list_lookup_fmap_Some in Hj as (y & -> & Hj).
  apply (Hl i j x y Hij Hi Hj), Hf; [..|done]; by eapply list_elem_of_lookup_2.
Qed.

Section product_facts.
Context {A : Type}.
Implicit Types (pool : list A) (pools : list (list A)) (xs : list A).

Lemma length_product pools : length (product pools) = sizes_product pools.
Proof.
  induction pools as [|pool pools IH]; [done|].
  rewrite product_cons. simpl. rewrite <- IH. clear IH.
  induction pool as [|y pool IHp]; [done|].
  rewrite bind_cons, length_app, length_fmap, IHp. done.
Qed.

(** The tuples of the product take one element of each pool. *)
Lemma elem_of_product xs pools :
  xs ∈ product pools ↔ Forall2 (λ x pool, x ∈ pool) xs pools.
Proof.
  revert xs. induction pools as [|pool pools IH]; intros xs.
  - rewrite product_nil, list_elem_of_singleton. split; [intros ->; constructor|].
    by intros ->%Forall2_nil_inv_r.
  - rewrite product_cons, list_elem_of_bind. split.
    + intros (y & (xs' & -> & Hxs')%list_elem_of_fmap & Hy).
      constructor; [done|]. by apply IH.
    + intros (y & xs' & Hy & Hxs' & ->)%Forall2_cons_inv_r.
      exists y. split; [|done]. apply list_elem_of_fmap. exists xs'. by rewrite IH.
Qed.

(** The tuple of indices [idx] stands at position [rank idx pools]: the
    index into the last pool moves fastest. *)
Lemma product_lookup_rank idx pools xs :
  pick idx pools = Some xs → product pools !! rank idx pools = Some xs.
Proof.
  revert idx xs. induction pools as [|pool pools IH]; intros [|i idx] xs Hp;
    simplify_eq/=; [done|].
  destruct (pool !! i) as [x|] eqn:Hx; simplify_eq/=.
  destruct (pick idx pools) as [xs'|] eqn:Hxs; simplify_eq/=.
  rewrite product_cons.
  apply (lookup_bind_block _ _ (sizes_product pools) i (rank idx pools) x); [|done|].
  - intros z. by rewrite length_fmap, length_product.
  - rewrite list_lookup_fmap, (IH idx xs'); done.
Qed.

(** One empty pool empties the product. *)
Lemma product_empty_pool pools : [] ∈ pools → product pools = [].
Proof.
  induction pools as [|pool pools IH]; [by intros ?%elem_of_nil|].
  rewrite product_cons. intros [<-|Hin]%elem_of_cons; [done|].
  rewrite IH by done. clear. induction pool as [|y pool IHp]; [done|].
  by rewrite bind_cons, IHp.
Qed.

Lemma distinct_by_product (R : A → A → Prop) pools :
  Forall (distinct_by R) pools → distinct_by (Forall2 R) (product pools).
Proof.
  induction 1 as [|pool pools Hpool _ IH].
  - rewrite product_nil. apply distinct_by_cons. split; [|apply distinct_by_nil].
    intros y Hy. by apply elem_of_nil in Hy.
  - rewrite product_cons. induction pool as [|y pool IHp]; [apply distinct_by_nil|].
    apply distinct_by_cons in Hpool as [Hy Hpool].
    rewrite bind_cons. apply distinct_by_app. split_and!.
    + apply (distinct_by_fmap (Forall2 R)); [|done].
      intros xs ys _ _ H. by apply Forall2_cons_1 in H as [_ ?].
    + by apply IHp.
    + intros xs ys (xs' & -> & _)%list_elem_of_fmap
        (y' & (ys' & -> & _)%list_elem_of_fmap & Hy')%list_elem_of_bind.
      destruct (Hy y' Hy') as [H1 H2].
      split; intros [HR _]%Forall2_cons_1; auto.
Qed.
End product_facts.

(** ** Dicts *)

Lemma dict_set_fresh (d : dict) k v :
  k ∉ d.*1 → dict_set d k v = d ++ [(k, v)].
Proof.
  induction d as [|[k' v'] d IH]; [done|]. simpl. intros Hk.
  rewrite not_elem_of_cons in Hk. destruct Hk as [Hne Hk].
  rewrite decide_False by done. by rewrite IH.
Qed.

Lemma fold_dict_set_NoDup (pairs acc : list (string * value)) :
  NoDup (acc ++ pairs).*1 →
  fold_left (λ d kv, dict_set d kv.1 kv.2) pairs acc = acc ++ pairs.
Proof.
  revert acc. induction pairs as [|[k v] pairs IH]; intros acc Hnd.
  - by rewrite app_nil_r.
  - simpl. rewrite dict_set_fresh.
    + rewrite IH; by rewrite <- app_assoc.
    + rewrite fmap_app, fmap_cons in Hnd.
      apply NoDup_app in Hnd as (_ & Hnd & _). intros Hk.
      apply (Hnd k Hk). simpl. left.
Qed.

(** Building a dict from pairs with pairwise distinct keys keeps the pairs. *)
Lemma dict_of_pairs_NoDup (pairs : list (string * value)) :
  NoDup pairs.*1 → dict_of_pairs pairs = pairs.
Proof. intros Hnd. unfold dict_of_pairs. by rewrite fold_dict_set_NoDup. Qed.

Lemma NoDup_fst_zip {A B} (l : list A) (k : list B) : NoDup l → NoDup (zip l k).*1.
Proof.
  intros Hl. revert k. induction Hl as [|x l Hx Hl IH]; intros [|y k]; simpl;
    try constructor; [|by apply IH].
  intros Hin. apply Hx. apply list_elem_of_fmap in Hin as ([x' y'] & -> & Hin).
  by apply elem_of_zip_l in Hin.
Qed.

Lemma create_variable_combinations_zip (options : variable_options) :
  NoDup options.*1 →
  create_variable_combinations options = zip options.*1 <$> product options.*2.
Proof.
  intros Hnd. unfold create_variable_combinations. apply list_fmap_ext.
  intros _ xs _. apply dict_of_pairs_NoDup. by apply NoDup_fst_zip.
Qed.

(** Dicts over the same distinct keys are equal only if their values are,
    position by position. *)
Lemma dict_eq_zip (names : list string) (xs ys : list value) :
  NoDup names → length xs = length names → length ys = length names →
  dict_eq (zip names xs) (zip names ys) → Forall2 value_eq xs ys.
Proof.
  unfold dict_eq, dict_eqb. intros Hnd Hx Hy [_ H]%andb_prop.
  revert xs ys Hx Hy H.
  induction Hnd as [|k names Hk Hnd IH]; intros [|x xs] [|y ys] Hx Hy H;
    simplify_eq/=; [constructor|].
  rewrite decide_True in H by done. apply andb_prop in H as [Hxy H].
  constructor; [done|]. apply IH; [done..|].
  apply forallb_forall. intros [k' x'] Hin.
  eapply forallb_forall in H; [|done]. simpl in *.
  rewrite decide_False in H; [done|].
  intros ->. apply Hk. apply list_elem_of_In in Hin. by apply elem_of_zip_l in Hin.
Qed.

(** C1 (as the code has it).  For options with pairwise distinct names and
    value lists of sizes n1..nk, [create_variable_combinations] returns
    exactly n1×...×nk combinations; each binds the names, in the order of the
    mapping, to one value of each list; the combination that takes the
    values at indices [idx] stands at position [rank idx], so the last
    variable varies fastest; and no two combinations are equal as mappings
    provided no value list holds two equal values.  On the options
    a:[1,2], b:[p,q] and the template x=$(a) y=$(b) the four documents come
    out in the stated order. *)
Theorem create_variable_combinations_product (options : variable_options) :
  NoDup options.*1 →
  length (create_variable_combinations options) = sizes_product options.*2 ∧
  (∀ c, c ∈ create_variable_combinations options →
        c.*1 = options.*1 ∧ Forall2 (λ v vs, v ∈ vs) c.*2 options.*2) ∧
  (∀ idx xs, pick idx options.*2 = Some xs →
        create_variable_combinations options !! rank idx options.*2
        = Some (zip options.*1 xs)) ∧
  (Forall (distinct_by value_eq) options.*2 →
        distinct_by dict_eq (create_variable_combinations options)) ∧
  substitute_variables "x=$(a) y=$(b)" <$>
    create_variable_combinations
      [("a", [VInt 1; VInt 2]); ("b", [VStr "p"; VStr "q"])]
  = ["x=1 y=p"; "x=1 y=q"; "x=2 y=p"; "x=2 y=q"].
Proof.
  intros Hnd. rewrite create_variable_combinations_zip by done.
  assert (Hlen : ∀ xs, xs ∈ product options.*2 → length xs = length options.*1).
  { intros xs Hxs%elem_of_product%Forall2_length. by rewrite Hxs, !length_fmap. }
  split_and!.
  - by rewrite length_fmap, length_product.
  - intros c (xs & -> & Hxs)%list_elem_of_fmap.
    specialize (Hlen xs Hxs). apply elem_of_product in Hxs.
    rewrite fst_zip, snd_zip by lia. done.
  - intros idx xs Hp. rewrite list_lookup_fmap.
    by rewrite (product_lookup_rank idx _ xs).
  - intros Hvs. eapply distinct_by_fmap; [|by apply distinct_by_product].
    intros xs ys Hxs Hys. apply dict_eq_zip; auto.
  - vm_compute. reflexivity.
Qed.

Lemma create_variable_combinations_product_witness :
  length (create_variable_combinations
            [("a", [VInt 1; VInt 2]); ("b", [VStr "p"; VStr "q"])]) = 4 ∧
  create_variable_combinations
    [("a", [VInt 1; VInt 2]); ("b", [VStr "p"; VStr "q"])] !! 2
  = Some [("a", VInt 2); ("b", VStr "p")].
Proof.
  assert (Hnd : NoDup [("a", [VInt 1; VInt 2]); ("b", [VStr "p"; VStr "q"])].*1)
    by (apply (bool_decide_unpack _); vm_compute; exact I).
  destruct (create_variable_combinations_product _ Hnd) as (Hlen & _ & Hpos & _).
  split; [exact Hlen|].
  exact (Hpos [1; 0] [VInt 2; VStr "p"] eq_refl).
Defined.

(** C1 fails as stated when a value list repeats a value: both lists below
    are non-empty, and the two combinations returned are the same mapping. *)
Lemma create_variable_combinations_repeated_value :
  create_variable_combinations [("a", [VInt 1; VInt 1])]
  = [[("a", VInt 1)]; [("a", VInt 1)]] ∧
  dict_eqb [("a", VInt 1)] [("a", VInt 1)] = true.
Proof. split; vm_compute; reflexivity. Qed.

(** C8.  One variable with an empty value list leaves no combination; the
    enumerator is a total function, so nothing is raised. *)
Theorem create_variable_combinations_empty_list (options : variable_options) k :
  (k, []) ∈ options → create_variable_combinations options = [].
Proof.
  intros Hin. unfold create_variable_combinations.
  rewrite product_empty_pool; [done|].
  apply list_elem_of_fmap. by exists (k, []).
Qed.

Lemma create_variable_combinations_empty_list_witness :
  create_variable_combinations [("a", [VInt 1; VInt 2]); ("b", [])] = [].
Proof.
  apply (create_variable_combinations_empty_list _ "b").
  apply list_elem_of_In. right. left. reflexivity.
Defined.

(** ** Strings *)

Lemma app_String c (s t : string) : String c s +:+ t = String c (s +:+ t).
Proof. done. Qed.

Lemma string_app_nil_l (s : string) : "" +:+ s = s.
Proof. done. Qed.

Lemma string_app_nil_r (s : string) : s +:+ "" = s.
Proof. induction s as [|c s IH]; [done|]. by rewrite app_String, IH. Qed.

Lemma string_app_assoc (s t u : string) : (s +:+ t) +:+ u = s +:+ (t +:+ u).
Proof. induction s as [|c s IH]; [done|]. by rewrite !app_String, IH. Qed.

Lemma prefix_String c1 c2 (s1 s2 : string) :
  String.prefix (String c1 s1) (String c2 s2)
  = bool_decide (c1 = c2) && String.prefix s1 s2.
Proof. simpl. destruct (ascii_dec c1 c2); by case_bool_decide. Qed.

Lemma prefix_app (s t : string) : String.prefix s (s +:+ t) = true.
Proof.
  induction s as [|c s IH]; [by destruct t|].
  rewrite app_String, prefix_String, IH. by rewrite bool_decide_true.
Qed.

Lemma placeholder_String var_name :
  placeholder var_name = String "$" (String "(" (var_name +:+ ")")).
Proof. done. Qed.

(** *** One pass of [str.replace] *)


(** The characters of a match are passed over without being looked at. *)
Lemma replace_from_skip old new (p s : string) :
  replace_from old new (String.length p) (p +:+ s) = replace_from old new 0 s.
Proof. induction p as [|c p IH]; [done|]. rewrite app_String. simpl. apply IH. Qed.

(** At a match, the new text is written and the scan resumes after it. *)
Lemma replace_from_match old new (s : string) :
  old ≠ "" →
  replace_from old new 0 (old +:+ s) = new +:+ replace_from old new 0 s.
Proof.
  intros Hold. pose proof (prefix_app old s) as Hp.
  destruct old as [|c old']; [done|].
  rewrite app_String in *. cbn [replace_from]. rewrite Hp.
  cbn [String.length]. rewrite Nat.sub_1_r. cbn [Nat.pred].
  by rewrite replace_from_skip.
Qed.

(** Elsewhere, the character is kept. *)
Lemma replace_from_keep old new c (s : string) :
  String.prefix old (String c s) = false →
  replace_from old new 0 (String c s) = String c (replace_from old new 0 s).
Proof. intros Hp. cbn [replace_from]. by rewrite Hp. Qed.

Lemma str_replace_placeholder (s var_name new : string) :
  str_replace s (placeholder var_name) new
  = replace_from (placeholder var_name) new 0 s.
Proof. done. Qed.


Lemma substitute_variables_snoc (template_content : string) (variables : dict) k v :
  substitute_variables template_content (variables ++ [(k, v)])
  = str_replace (substitute_variables template_content variables)
      (placeholder k) (str v).
Proof. unfold substitute_variables. by rewrite fold_left_app. Qed.



(** ** Substitution on well-formed templates *)

(** Names without a closing parenthesis: a placeholder opens at most one
    other placeholder, its own. *)
Lemma prefix_name_close (k n s : string) :
  has_char ")" k = false → has_char ")" n = false →
  String.prefix (k +:+ ")") (n +:+ ")" +:+ s) = true → n = k.
Proof.
  revert n. induction k as [|c k IH]; intros [|c' n] Hk Hn; try done.
  - rewrite string_app_nil_l, !app_String, prefix_String. simpl in Hn.
    apply orb_false_elim in Hn as [Hc _]. apply bool_decide_eq_false in Hc.
    intros [Heq _]%andb_prop. apply bool_decide_eq_true in Heq. congruence.
  - rewrite (string_app_nil_l (")" +:+ s)), !app_String, prefix_String.
    simpl in Hk.
    apply orb_false_elim in Hk as [Hc _]. apply bool_decide_eq_false in Hc.
    intros [Heq _]%andb_prop. apply bool_decide_eq_true in Heq. congruence.
  - rewrite !app_String, prefix_String. simpl in Hk, Hn.
    apply orb_false_elim in Hk as [_ Hk]. apply orb_false_elim in Hn as [_ Hn].
    intros [Heq Hp]%andb_prop. apply bool_decide_eq_true in Heq as ->.
    f_equal. by apply IH.
Qed.

Lemma prefix_placeholder (k n s : string) :
  has_char ")" k = false → has_char ")" n = false → n ≠ k →
  String.prefix (placeholder k) (placeholder n +:+ s) = false.
Proof.
  intros Hk Hn Hne. apply not_true_is_false. intros Hp. apply Hne.
  rewrite !placeholder_String, !app_String, !prefix_String in Hp.
  apply andb_prop in Hp as [_ [_ Hp]%andb_prop].
  rewrite string_app_assoc in Hp. by apply prefix_name_close in Hp.
Qed.

Lemma has_char_app c (s t : string) :
  has_char c (s +:+ t) = has_char c s || has_char c t.
Proof.
  induction s as [|c' s IH]; [done|].
  rewrite app_String. simpl. by rewrite IH, orb_assoc.
Qed.

Lemma plain_text_String c (s : string) :
  plain_text (String c s) = true → plain_text s = true.
Proof. cbn [plain_text]. by intros [_ ?]%andb_prop. Qed.

Lemma plain_text_no_dollar (s : string) :
  has_char "$" s = false → plain_text s = true.
Proof.
  induction s as [|c s IH]; [done|]. cbn [has_char plain_text].
  intros [Hc Hs]%orb_false_elim. by rewrite Hc, IH.
Qed.

Lemma plain_text_app (s t : string) :
  plain_text s = true → plain_text t = true → plain_text (s +:+ t) = true.
Proof.
  intros Hs Ht. induction s as [|c s IH]; [done|].
  rewrite app_String. cbn [plain_text] in *.
  apply andb_prop in Hs as [Hc Hs]. rewrite IH by done. rewrite andb_true_r.
  destruct (bool_decide (c = "$"%char)); [|done].
  destruct s as [|c' s]; [done|]. by rewrite app_String.
Qed.

(** Plain text is not the start of a placeholder. *)
Lemma prefix_placeholder_plain k c (t s : string) :
  plain_text (String c t) = true →
  String.prefix (placeholder k) (String c t +:+ s) = false.
Proof.
  cbn [plain_text]. intros [Hc _]%andb_prop.
  rewrite placeholder_String, app_String, prefix_String.
  case_bool_decide as Hd; [subst c|by rewrite bool_decide_false by congruence].
  rewrite bool_decide_true by done. destruct t as [|c' t]; [done|].
  rewrite app_String, prefix_String. apply negb_true_iff in Hc.
  apply bool_decide_eq_false in Hc. rewrite bool_decide_false by congruence. done.
Qed.

(** A pass copies plain text. *)
Lemma replace_from_plain k new (t s : string) :
  plain_text t = true →
  replace_from (placeholder k) new 0 (t +:+ s)
  = t +:+ replace_from (placeholder k) new 0 s.
Proof.
  induction t as [|c t IH]; [done|]. intros Ht.
  rewrite (app_String c t s), replace_from_keep.
  - rewrite IH by (by eapply plain_text_String). done.
  - rewrite <- app_String. by apply prefix_placeholder_plain.
Qed.

Lemma plain_text_not_contains (s x : string) :
  plain_text s = true → str_contains s (String "$" (String "(" x)) = false.
Proof.
  induction s as [|c s IH]; [done|]. intros Hs. cbn [str_contains].
  rewrite IH by (by eapply plain_text_String). rewrite orb_false_r.
  pose proof (prefix_placeholder_plain "" c s "" Hs) as Hp.
  rewrite string_app_nil_r, placeholder_String, string_app_nil_l in Hp.
  rewrite !prefix_String in *. cbn [plain_text] in Hs.
  apply andb_prop in Hs as [Hc _].
  destruct (bool_decide (c = "$"%char)) eqn:Hd.
  - apply bool_decide_eq_true in Hd as ->. rewrite bool_decide_true by done.
    destruct s as [|c' s]; [done|]. rewrite prefix_String.
    apply negb_true_iff, bool_decide_eq_false in Hc.
    by rewrite bool_decide_false by congruence.
  - apply bool_decide_eq_false in Hd. by rewrite bool_decide_false by congruence.
Qed.

Lemma wf_pass_segment k new seg :
  plain_text new = true → wf_segment seg → wf_segment (pass_segment k new seg).
Proof. intros Hnew. destruct seg as [t|n]; simpl; [done|]. by case_decide. Qed.

(** One pass over a well-formed template rewrites exactly the placeholders
    of its variable. *)
Lemma str_replace_render (segs : list segment) k new :
  Forall wf_segment segs → has_char ")" k = false →
  str_replace (render segs) (placeholder k) new
  = render (pass_segment k new <$> segs).
Proof.
  intros Hwf Hk. rewrite str_replace_placeholder.
  induction Hwf as [|seg segs Hseg _ IH]; [done|].
  cbn [render foldr fmap list_fmap]. fold (render segs).
  fold (render (pass_segment k new <$> segs)). rewrite <- IH. clear IH.
  destruct seg as [t|n]; cbn [render_segment pass_segment wf_segment] in *.
  - by apply replace_from_plain.
  - destruct Hseg as [Hn1 Hn2]. case_decide as Hnk.
    + subst n. cbn [render_segment]. by apply replace_from_match.
    + cbn [render_segment]. rewrite (placeholder_String n) at 1. rewrite !app_String.
      rewrite replace_from_keep.
      * rewrite (placeholder_String n), !app_String. f_equal.
        rewrite <- (app_String "(" (n +:+ ")") (render segs)).
        rewrite replace_from_plain; [by rewrite <- !app_String|].
        apply plain_text_no_dollar. cbn [has_char].
        rewrite has_char_app, Hn1. done.
      * change (String "$" (String "(" ((n +:+ ")") +:+ render segs)))
          with (placeholder n +:+ render segs).
        by apply prefix_placeholder.
Qed.

(** The passes of a combination over a well-formed template, seen on its
    segments. *)
Lemma substitute_variables_render (segs : list segment) (variables : dict) :
  Forall wf_segment segs → wf_variables variables →
  substitute_variables (render segs) variables = render (passes variables segs) ∧
  Forall wf_segment (passes variables segs).
Proof.
  intros Hwf Hvars. revert segs Hwf.
  induction Hvars as [|[k v] variables [Hk Hv] _ IH]; intros segs Hwf; [done|].
  unfold substitute_variables, passes. cbn [fold_left fst snd].
  rewrite str_replace_render by done. apply IH.
  eapply Forall_fmap, Forall_impl; [done|]. intros seg. by apply wf_pass_segment.
Qed.

Lemma substitute_spec_pass (segs : list segment) k v (variables : dict) :
  substitute_spec (pass_segment k (str v) <$> segs) variables
  = substitute_spec segs ((k, v) :: variables).
Proof.
  induction segs as [|seg segs IH]; [done|].
  cbn [substitute_spec foldr fmap list_fmap].
  fold (substitute_spec (pass_segment k (str v) <$> segs) variables).
  fold (substitute_spec segs ((k, v) :: variables)). rewrite IH. f_equal.
  destruct seg as [t|n]; simpl; [done|].
  destruct (decide (n = k)) as [->|Hne].
  - by rewrite decide_True.
  - by rewrite decide_False by done.
Qed.

Lemma substitute_spec_nil (segs : list segment) : substitute_spec segs [] = render segs.
Proof. induction segs as [|[t|n] segs IH]; [done|..]; simpl; by f_equal. Qed.

(** C4 (as the code has it).  On a template whose only [$(] are those of
    its placeholders, with names that hold no dollar sign and no closing
    parenthesis, and for a combination whose names hold no closing
    parenthesis and whose values print as plain text (no [$(] inside, no
    dollar sign at the end), [substitute_variables] returns the template
    with every placeholder of a bound name replaced by the string form of
    its value, and every other placeholder unchanged. *)
Theorem substitute_variables_spec (segs : list segment) (variables : dict) :
  Forall wf_segment segs →
  wf_variables variables →
  substitute_variables (render segs) variables = substitute_spec segs variables.
Proof.
  intros Hwf Hvars.
  destruct (substitute_variables_render segs variables Hwf Hvars) as [-> _].
  clear Hwf Hvars. revert segs.
  induction variables as [|[k v] variables IH]; intros segs.
  - symmetry. apply substitute_spec_nil.
  - unfold passes. cbn [fold_left fst snd].
    fold (passes variables (pass_segment k (str v) <$> segs)).
    rewrite IH. apply substitute_spec_pass.
Qed.

Lemma substitute_variables_spec_witness :
  substitute_variables "cost=5$ x=$(a) y=$(b) z=$(c)" [("a", VInt 1); ("b", VStr "p")]
  = "cost=5$ x=1 y=p z=$(c)".
Proof.
  apply (substitute_variables_spec
           [Lit "cost=5$ x="; Ph "a"; Lit " y="; Ph "b"; Lit " z="; Ph "c"]
           [("a", VInt 1); ("b", VStr "p")]).
  - repeat constructor.
  - repeat constructor.
Defined.

(** C4 fails as stated: the template holds one placeholder, of [a]; replacing
    it by the value of [a] gives the text [$(b)], and the code returns [X]. *)
Lemma substitute_variables_not_simultaneous :
  substitute_spec [Ph "a"] [("a", VStr "$(b)"); ("b", VStr "X")] = "$(b)" ∧
  substitute_variables (render [Ph "a"]) [("a", VStr "$(b)"); ("b", VStr "X")]
  = "X".
Proof. split; vm_compute; reflexivity. Qed.

(** A pass leaves the placeholders of the other names, and after the passes
    of a combination no placeholder of one of its names is left. *)
Lemma elem_of_passes (variables : dict) (segs : list segment) n :
  Ph n ∈ passes variables segs → Ph n ∈ segs ∧ n ∉ variables.*1.
Proof.
  revert segs. induction variables as [|[k v] variables IH]; intros segs.
  - intros Hin. split; [done|]. by intros ?%elem_of_nil.
  - unfold passes. cbn [fold_left fst snd].
    fold (passes variables (pass_segment k (str v) <$> segs)).
    intros [Hin Hn]%IH. apply list_elem_of_fmap in Hin as ([t|n'] & Heq & Hin);
      simpl in Heq; [done|].
    case_decide as Hk; [done|]. injection Heq as ->.
    split; [done|]. rewrite fmap_cons, not_elem_of_cons. done.
Qed.

(** C5 (as the code has it).  When, besides, every placeholder of the
    template is for a name of the combination, the result is plain text: it
    holds no [$(], hence no placeholder of a name of the combination. *)
Theorem substitute_variables_no_token (segs : list segment) (variables : dict) :
  Forall wf_segment segs →
  (∀ n, Ph n ∈ segs → n ∈ variables.*1) →
  wf_variables variables →
  plain_text (substitute_variables (render segs) variables) = true ∧
  ∀ k, k ∈ variables.*1 →
       str_contains (substitute_variables (render segs) variables) (placeholder k)
       = false.
Proof.
  intros Hwf Hph Hvars.
  destruct (substitute_variables_render segs variables Hwf Hvars) as [-> Hwf'].
  assert (Hplain : plain_text (render (passes variables segs)) = true).
  { assert (Hno : ∀ n, Ph n ∉ passes variables segs).
    { intros n [Hin Hn]%elem_of_passes. by apply Hn, Hph. }
    induction Hwf' as [|seg segs' Hseg _ IH]; [done|].
    cbn [render foldr]. fold (render segs'). apply plain_text_app.
    - destruct seg as [t|n]; [done|]. destruct (Hno n). left.
    - apply IH. intros n Hn. apply (Hno n). by right. }
  split; [done|]. intros k _. rewrite placeholder_String.
  by apply plain_text_not_contains.
Qed.

Lemma substitute_variables_no_token_witness :
  str_contains
    (substitute_variables "x=$(a) y=$(b)" [("a", VInt 1); ("b", VStr "p")])
    (placeholder "b") = false.
Proof.
  apply (substitute_variables_no_token [Lit "x="; Ph "a"; Lit " y="; Ph "b"]
           [("a", VInt 1); ("b", VStr "p")]).
  - repeat constructor.
  - intros n Hn. apply (bool_decide_unpack _).
    repeat (apply elem_of_cons in Hn as [Hn|Hn]; [by simplify_eq|]).
    by apply elem_of_nil in Hn.
  - repeat constructor.
  - apply (bool_decide_unpack _). vm_compute. exact I.
Defined.

(** C5 fails as stated: the template holds one placeholder, of a name the
    combination binds, and the result still holds that placeholder. *)
Lemma substitute_variables_leaves_token :
  render [Ph "a"] = "$(a)" ∧
  str_contains (substitute_variables "$(a)" [("a", VStr "$(a)")]) (placeholder "a")
  = true.
Proof. split; vm_compute; reflexivity. Qed.

(** ** Document naming *)

Lemma sorted_items_Permutation (variables : dict) : sorted_items variables ≡ₚ variables.
Proof. apply merge_sort_Permutation. Qed.

Lemma sorted_items_Sorted (variables : dict) : Sorted item_le (sorted_items variables).
Proof. apply Sorted_merge_sort, _. Qed.

(** The order of the items of a dict does not matter to [sorted]. *)
Lemma sorted_items_unique (d1 d2 : dict) :
  NoDup d1.*1 → d1 ≡ₚ d2 → sorted_items d1 = sorted_items d2.
Proof.
  intros Hnd Hperm.
  apply (Sorted_unique_strong item_le); [|apply sorted_items_Sorted..|].
  - intros [k1 v1] [k2 v2] H1 H2 Hle1 Hle2.
    rewrite sorted_items_Permutation in H1.
    rewrite sorted_items_Permutation, <- Hperm in H2.
    assert (k1 = k2) as -> by (by apply (anti_symm String.le)).
    f_equal. apply list_elem_of_lookup in H1 as [i Hi], H2 as [j Hj].
    assert (i = j) as ->; [|congruence].
    apply (NoDup_lookup d1.*1 i j k2); [done|by rewrite list_lookup_fmap, ?Hi, ?Hj..].
  - by rewrite !sorted_items_Permutation.
Qed.

(** What [generate_job_file] does, by the state of the template file and of
    the target path. *)
Lemma generate_job_file_cases E self (variables : dict) job_name (s : state) :
  generate_job_file E self variables job_name s =
  match files s !! template_file self with
  | Some (Text template_content) =>
      let job_file_path :=
        joinpath E (output_dir self) (job_filename variables job_name) in
      if writable E job_file_path
      then (Ok job_file_path,
            set_files (<[job_file_path :=
                           Text (substitute_variables template_content variables)]>
                         (files s)) s)
      else (Raise (OSError job_file_path), s)
  | Some Unreadable =>
      (Raise (Exception ("Error reading template file: " +:+ template_file self)), s)
  | None =>
      (Raise (FileNotFoundError
                ("Template file '" +:+ template_file self +:+ "' not found")), s)
  end.
Proof.
  unfold generate_job_file, load_template, try_except, read_file, write_file,
    mbind, io_bind, mret, io_ret, mthrow, io_throw.
  destruct (files s !! template_file self) as [[t|]|]; [|done..].
  cbn zeta. by destruct (writable E _).
Qed.

(** C6.  With no job name given, the document is written under the name
    [job_] followed by the [key_value] pairs of the combination joined by
    underscores and by [.yaml]; the pairs come in ascending order of their
    keys, so the name is the same for every insertion order of one
    mapping. *)
Theorem job_filename_deterministic E self (variables : dict) (s : state)
    template_content :
  NoDup variables.*1 →
  files s !! template_file self = Some (Text template_content) →
  writable E (joinpath E (output_dir self) (job_filename variables None)) = true →
  (generate_job_file E self variables None s).1
  = Ok (joinpath E (output_dir self) (job_filename variables None)) ∧
  job_filename variables None
  = "job_" +:+
    String.concat "_"
      ((λ kv, kv.1 +:+ "_" +:+ str kv.2) <$> sorted_items variables) +:+
    ".yaml" ∧
  sorted_items variables ≡ₚ variables ∧
  Sorted item_le (sorted_items variables) ∧
  ∀ variables' : dict,
    variables' ≡ₚ variables →
    job_filename variables' None = job_filename variables None.
Proof.
  intros Hnd Ht Hw. split_and!.
  - rewrite generate_job_file_cases, Ht. cbn zeta. by rewrite Hw.
  - done.
  - apply sorted_items_Permutation.
  - apply sorted_items_Sorted.
  - intros variables' Hperm. unfold job_filename.
    by rewrite (sorted_items_unique variables variables').
Qed.

Lemma job_filename_deterministic_witness :
  (generate_job_file example_env (Generator "template.yaml" "batch_job")
     [("b", VStr "p"); ("a", VInt 1)] None example_state).1
  = Ok "batch_job/job_a_1_b_p.yaml".
Proof.
  refine (proj1 (job_filename_deterministic example_env
                   (Generator "template.yaml" "batch_job")
                   [("b", VStr "p"); ("a", VInt 1)] example_state
                   "x=$(a) y=$(b)" _ _ _)).
  - apply (bool_decide_unpack _). vm_compute. exact I.
  - vm_compute. reflexivity.
  - reflexivity.
Defined.

(** ** The process *)

Lemma emit_nil (s : state) : emit [] s = s.
Proof. destruct s. unfold emit. simpl. by rewrite app_nil_r. Qed.

Lemma emit_emit (l1 l2 : list event) (s : state) :
  emit l2 (emit l1 s) = emit (l1 ++ l2) s.
Proof. unfold emit. simpl. by rewrite app_assoc. Qed.

Lemma bind_Ok {A B} (m : io A) (k : A → io B) (s s' : state) x :
  m s = (Ok x, s') → (m ≫= k) s = k x s'.
Proof. intros Hm. io_unfold. by rewrite Hm. Qed.

Lemma bind_Raise {A B} (m : io A) (k : A → io B) (s s' : state) e :
  m s = (Raise e, s') → (m ≫= k) s = (Raise e, s').
Proof. intros Hm. io_unfold. by rewrite Hm. Qed.

Lemma bind_print {B} e (k : unit → io B) (s : state) :
  (print e ≫= k) s = k () (emit [e] s).
Proof. done. Qed.

Lemma try_except_Ok {A} (body : io A) handlers (s s' : state) x :
  body s = (Ok x, s') → try_except body handlers s = (Ok x, s').
Proof. intros Hb. unfold try_except. by rewrite Hb. Qed.

Lemma try_except_Raise {A} (body : io A) handlers (s s' : state) e :
  body s = (Raise e, s') →
  try_except body handlers s
  = match handlers e with
    | Some handler => handler s'
    | None => (Raise e, s')
    end.
Proof. intros Hb. unfold try_except. by rewrite Hb. Qed.

Lemma for_enumerate_print {A} (f : nat → A → event) (l : list A) i0 (s : state) :
  for_enumerate i0 l (λ i x, print (f i x)) s
  = (Ok (), emit (imap (λ j x, f (i0 + j) x) l) s).
Proof.
  revert i0 s. induction l as [|x l IH]; intros i0 s.
  - simpl. io_unfold. by rewrite emit_nil.
  - cbn [for_enumerate imap]. rewrite bind_print, IH, emit_emit.
    rewrite Nat.add_0_r. do 3 f_equal. apply imap_ext.
    intros j y _. simpl. f_equal. lia.
Qed.

Lemma load_variable_options_cases E (a : args) (s : state) :
  load_variable_options E (arg_variable_file a) s =
  match document_loaded E a s with
  | Some document => (Ok document, s)
  | None =>
      (Raise match files s !! arg_variable_file a with
             | Some (Text _) => Exception "YAMLError"
             | Some Unreadable => OSError (arg_variable_file a)
             | None => FileNotFoundError (arg_variable_file a)
             end, s)
  end.
Proof.
  unfold load_variable_options, document_loaded, read_file. io_unfold.
  destruct (files s !! arg_variable_file a) as [[text|]|]; [|done..].
  by destruct (yaml_safe_load E text).
Qed.

(** Up to the combinations, [main] only reads. *)
Lemma main_options E (a : args) (s : state) (options : variable_options)
    {B} (k : variable_options → io B) :
  variable_options_loaded E a s = Some options →
  (try_except (load_variable_options E (arg_variable_file a))
     (λ e, if is_Exception e
           then Some (print (ErrorLoadingVariables e);; mthrow (SystemExit 1))
           else None)
   ≫= λ document, as_variable_options document ≫= k) s
  = k options s.
Proof.
  unfold variable_options_loaded. intros Hload.
  destruct (document_loaded E a s) as [[options'|]|] eqn:Hdoc; simplify_eq.
  rewrite (bind_Ok _ _ _ s (Mapping options)); [done|].
  apply try_except_Ok. by rewrite load_variable_options_cases, Hdoc.
Qed.

Lemma script_dry_run E (a : args) (s : state) (options : variable_options) :
  arg_dry_run a = true →
  variable_options_loaded E a s = Some options →
  script E a s
  = (0, emit ([Here; DryRunMode; DryTemplateFile (arg_template_file a);
               DryVariableOptions options;
               DryTotalCombinations (length (create_variable_combinations options));
               DryHeading]
              ++ imap (λ j combo, DryCombination (S j) combo)
                   (create_variable_combinations options)) s).
Proof.
  intros Hdry Hload. unfold script. rewrite bind_print. unfold main.
  rewrite (main_options E a (emit [Here] s) options) by done.
  rewrite Hdry, !bind_print, for_enumerate_print, !emit_emit. done.
Qed.

(** C9.  In dry-run mode, once the variable file is loaded, the program
    prints the header and then every combination, numbered from one, in the
    order of the enumerator; it exits with status zero, and the files, the
    directories and the record of submissions are what they were: nothing is
    written, the output directory is not created, and the submission tool is
    not run. *)
Theorem main_dry_run E (a : args) (s : state) (options : variable_options) :
  arg_dry_run a = true →
  variable_options_loaded E a s = Some options →
  script E a s
  = (0, emit ([Here; DryRunMode; DryTemplateFile (arg_template_file a);
               DryVariableOptions options;
               DryTotalCombinations (length (create_variable_combinations options));
               DryHeading]
              ++ imap (λ j combo, DryCombination (S j) combo)
                   (create_variable_combinations options)) s) ∧
  files (script E a s).2 = files s ∧
  dirs (script E a s).2 = dirs s ∧
  kubectl_log (script E a s).2 = kubectl_log s.
Proof.
  intros Hdry Hload. rewrite (script_dry_run E a s options) by done. done.
Qed.

Lemma main_dry_run_witness :
  stdout (script example_env
            (Args "template.yaml" "variables.yaml" "batch_job" false false true)
            example_state).2
  = [Here; DryRunMode; DryTemplateFile "template.yaml";
     DryVariableOptions [("a", [VInt 1; VInt 2]); ("b", [VStr "p"; VStr "q"])];
     DryTotalCombinations 4; DryHeading;
     DryCombination 1 [("a", VInt 1); ("b", VStr "p")];
     DryCombination 2 [("a", VInt 1); ("b", VStr "q")];
     DryCombination 3 [("a", VInt 2); ("b", VStr "p")];
     DryCombination 4 [("a", VInt 2); ("b", VStr "q")]] ∧
  files (script example_env
           (Args "template.yaml" "variables.yaml" "batch_job" false false true)
           example_state).2
  = files example_state.
Proof.
  destruct (main_dry_run example_env
              (Args "template.yaml" "variables.yaml" "batch_job" false false true)
              example_state
              [("a", [VInt 1; VInt 2]); ("b", [VStr "p"; VStr "q"])]
              eq_refl eq_refl) as (Hrun & Hfiles & _).
  split; [|exact Hfiles].
  rewrite Hrun. reflexivity.
Defined.

(** ** The batch loop *)

Lemma submit_job_cases E self (job_file_path : string) (s : state) :
  submit_job E self job_file_path s =
  match kubectl E (length (kubectl_log s)) job_file_path with
  | Completed out =>
      (Ok true, emit [Submitted job_file_path; SubmitOutput out]
                  (record_run job_file_path s))
  | ExitNonZero err =>
      (Ok false, emit [SubmitFailed job_file_path; SubmitError err]
                   (record_run job_file_path s))
  | NotInstalled => (Ok false, emit [KubectlNotFound] (record_run job_file_path s))
  | SpawnFailed => (Raise (OSError "kubectl"), record_run job_file_path s)
  end.
Proof.
  unfold submit_job, try_except, subprocess_run.
  unfold mbind at 1, io_bind at 1.
  destruct (kubectl E (length (kubectl_log s)) job_file_path);
    rewrite ?bind_print, ?emit_emit; done.
Qed.

(** The body of the loop, case by case: the state of the template file, of
    the target path, and the answer of the submission tool. *)
Lemma batch_body_cases E self submit_jobs cleanup n i (variables : dict) (s : state) :
  batch_body E self submit_jobs cleanup n i variables s =
  let s1 := emit [JobHeader i n; JobVariables variables] s in
  let p := job_file_path_of E self variables in
  match files s !! template_file self with
  | None =>
      (Ok (), emit [ErrorGeneratingJob i
                      (FileNotFoundError
                         ("Template file '" +:+ template_file self +:+ "' not found"))]
                s1)
  | Some Unreadable =>
      (Ok (), emit [ErrorGeneratingJob i
                      (Exception
                         ("Error reading template file: " +:+ template_file self))]
                s1)
  | Some (Text template_content) =>
      if writable E p then
        let s2 :=
          emit [Generated p]
            (add_generated p
               (set_files
                  (<[p := Text (substitute_variables template_content variables)]>
                     (files s)) s1)) in
        if submit_jobs then
          match kubectl E (length (kubectl_log s)) p with
          | Completed out =>
              let s3 :=
                add_success (emit [Submitted p; SubmitOutput out] (record_run p s2)) in
              if cleanup then
                if removable E p
                then (Ok (), emit [CleanedUp p] (set_files (delete p (files s3)) s3))
                else (Ok (), emit [ErrorGeneratingJob i (OSError p)] s3)
              else (Ok (), s3)
          | ExitNonZero err =>
              (Ok (), emit [SubmitFailed p; SubmitError err] (record_run p s2))
          | NotInstalled => (Ok (), emit [KubectlNotFound] (record_run p s2))
          | SpawnFailed =>
              (Ok (), emit [ErrorGeneratingJob i (OSError "kubectl")] (record_run p s2))
          end
        else (Ok (), s2)
      else (Ok (), emit [ErrorGeneratingJob i (OSError p)] s1)
  end.
Proof.
  unfold batch_body, job_file_path_of. rewrite !bind_print, emit_emit.
  cbn [app]. cbn zeta.
  set (s1 := emit [JobHeader i n; JobVariables variables] s).
  set (p := joinpath E (output_dir self) (job_filename variables None)).
  unfold try_except. unfold mbind at 1, io_bind at 1.
  rewrite generate_job_file_cases. fold p.
  change (files s1) with (files s).
  destruct (files s !! template_file self) as [[t|]|]; [|done..].
  cbn zeta. destruct (writable E p); [|done].
  unfold append_generated. unfold mbind at 1, io_bind at 1.
  rewrite bind_print.
  destruct submit_jobs; [|done].
  unfold when at 1. unfold mbind at 1, io_bind at 1.
  rewrite submit_job_cases.
  change (kubectl_log (emit _ _)) with (kubectl_log s).
  destruct (kubectl E (length (kubectl_log s)) p); try done.
  unfold when at 1, count_success. unfold mbind at 1, io_bind at 1.
  destruct cleanup; [|done].
  unfold when at 1. unfold mbind at 1, io_bind at 1.
  unfold os_remove.
  match goal with |- context [files ?st !! p] =>
    replace (files st !! p)
      with (Some (Text (substitute_variables t variables)))
      by (symmetry; apply lookup_insert_eq)
  end.
  destruct (removable E p); done.
Qed.

(** Whatever happens to one job, the body of the loop ends normally, leaves
    the directories and every file but the document of the job alone, and
    takes no failure out of the count. *)
Lemma batch_body_effect E self submit_jobs cleanup n i (variables : dict) (s : state) :
  ∃ s', batch_body E self submit_jobs cleanup n i variables s = (Ok (), s') ∧
        dirs s' = dirs s ∧
        (∀ q, q ≠ job_file_path_of E self variables →
              files s' !! q = files s !! q) ∧
        (failed_submissions s ≤ failed_submissions s')%Z ∧
        length (generated_files s') ≤ S (length (generated_files s)).
Proof.
  rewrite batch_body_cases. cbn zeta. unfold failed_submissions.
  destruct (files s !! template_file self) as [[t|]|];
    [|eexists; split; [reflexivity|]; simpl; split_and!; [done..|lia|lia]..].
  destruct (writable E _);
    [|eexists; split; [reflexivity|]; simpl; split_and!; [done..|lia|lia]].
  assert (Hframe : ∀ (m : gmap string file) x q,
            q ≠ job_file_path_of E self variables →
            <[job_file_path_of E self variables := x]> m !! q = m !! q)
    by (intros; by apply lookup_insert_ne).
  assert (Hframe' : ∀ (m : gmap string file) x q,
            q ≠ job_file_path_of E self variables →
            delete (job_file_path_of E self variables)
              (<[job_file_path_of E self variables := x]> m) !! q = m !! q)
    by (intros; by rewrite lookup_delete_ne, lookup_insert_ne).
  destruct submit_jobs;
    [|eexists; split; [reflexivity|]; simpl; split_and!;
      [done|by auto|rewrite length_app; simpl; lia..]].
  destruct (kubectl E _ _); [destruct cleanup; [destruct (removable E _)|]|..];
    (eexists; split; [reflexivity|]; simpl; split_and!;
      [done|by auto|rewrite length_app; simpl; lia..]).
Qed.

(** The loop over the combinations ends normally, and touches no file but
    the documents of its combinations. *)
Lemma for_enumerate_batch_effect E self submit_jobs cleanup n
    (combos : list dict) i0 (s : state) :
  ∃ s', for_enumerate i0 combos (batch_body E self submit_jobs cleanup n) s
        = (Ok (), s') ∧
        dirs s' = dirs s ∧
        (∀ q, (∀ c, c ∈ combos → q ≠ job_file_path_of E self c) →
              files s' !! q = files s !! q) ∧
        (failed_submissions s ≤ failed_submissions s')%Z ∧
        length (generated_files s') ≤ length combos + length (generated_files s).
Proof.
  revert i0 s. induction combos as [|c combos IH]; intros i0 s.
  - exists s. by split_and!.
  - destruct (batch_body_effect E self submit_jobs cleanup n i0 c s)
      as (s1 & Hrun & Hdirs & Hfiles & Hfailed & Hlen).
    destruct (IH (S i0) s1) as (s2 & Hrun2 & Hdirs2 & Hfiles2 & Hfailed2 & Hlen2).
    exists s2. cbn [for_enumerate]. rewrite (bind_Ok _ _ _ _ _ Hrun), Hrun2.
    split_and!; [done|congruence| |lia|simpl; lia].
    intros q Hq. rewrite Hfiles2, Hfiles; [done|..].
    + apply Hq. left.
    + intros c' Hc'. apply Hq. by right.
Qed.

Lemma error_reports_elem n e i (combos : list dict) j (variables : dict) :
  combos !! j = Some variables →
  ErrorGeneratingJob (i + j) e ∈ error_reports n e i combos.
Proof.
  revert i j. induction combos as [|c combos IH]; intros i j Hj; [done|].
  cbn [error_reports]. destruct j as [|j].
  - rewrite Nat.add_0_r. set_solver.
  - apply elem_of_app. right. rewrite <- Nat.add_succ_comm. by apply IH.
Qed.

(** With no readable template, the body of the loop announces the job,
    reports it with the error of [load_template], and changes nothing
    else; so does the loop, for each combination in turn. *)
Lemma batch_body_template_error E self submit_jobs cleanup n i (variables : dict)
    (s : state) :
  (∀ t, files s !! template_file self ≠ Some (Text t)) →
  batch_body E self submit_jobs cleanup n i variables s
  = (Ok (), emit [JobHeader i n; JobVariables variables;
                  ErrorGeneratingJob i (template_error (template_file self) s)] s).
Proof.
  intros Ht. rewrite batch_body_cases. cbn zeta. unfold template_error.
  destruct (files s !! template_file self) as [[t|]|];
    [by destruct (Ht t)|by rewrite emit_emit..].
Qed.

Lemma for_enumerate_template_error E self submit_jobs cleanup n
    (combos : list dict) i0 (s : state) :
  (∀ t, files s !! template_file self ≠ Some (Text t)) →
  for_enumerate i0 combos (batch_body E self submit_jobs cleanup n) s
  = (Ok (), emit (error_reports n (template_error (template_file self) s) i0 combos) s).
Proof.
  revert i0 s. induction combos as [|c combos IH]; intros i0 s Ht.
  - by rewrite emit_nil.
  - pose proof (batch_body_template_error E self submit_jobs cleanup n i0 c s Ht)
      as Hrun.
    cbn [for_enumerate error_reports].
    rewrite (bind_Ok _ _ _ _ _ Hrun), IH by exact Ht.
    by rewrite emit_emit.
Qed.

(** ** The batch and the process *)

(** A batch is the loop, run from fresh counters, followed by the summary of
    the state the loop ends in. *)
Lemma generate_and_submit_batch_run E self (combos : list dict) submit_jobs cleanup
    (s s' : state) :
  for_enumerate 1 combos (batch_body E self submit_jobs cleanup (length combos))
    (emit [Generating (length combos)] (reset_counters s)) = (Ok (), s') →
  generate_and_submit_batch E self combos submit_jobs cleanup s
  = (Ok (generated_files s'), emit (summary submit_jobs s') s').
Proof.
  intros Hloop. unfold generate_and_submit_batch, init_counters.
  unfold mbind at 1, io_bind at 1. rewrite bind_print.
  rewrite (bind_Ok _ _ _ _ _ Hloop). rewrite bind_print.
  unfold get. unfold mbind at 1, io_bind at 1. unfold mbind at 1, io_bind at 1.
  rewrite bind_print. unfold summary, when.
  destruct submit_jobs.
  - io_unfold. unfold print. cbn. by rewrite !emit_emit.
  - io_unfold. cbn. by rewrite !emit_emit.
Qed.

Lemma init_cases E (template_file output_dir : string) (s : state) :
  init E template_file output_dir s =
  if decide (output_dir ∈ dirs s) then (Ok (Generator template_file output_dir), s)
  else if mkdir_allowed E output_dir
  then (Ok (Generator template_file output_dir), add_dir output_dir s)
  else (Raise (OSError output_dir), s).
Proof.
  unfold init, mkdir_exist_ok. unfold mbind, io_bind.
  destruct (decide _); [done|]. by destruct (mkdir_allowed E output_dir).
Qed.

(** What [main] does outside dry-run mode once the options are loaded: when
    the output directory is ready, the batch runs and [main] returns;
    otherwise the error of [mkdir] escapes. *)
Lemma main_batch E (a : args) (s : state) (options : variable_options) :
  variable_options_loaded E a s = Some options →
  arg_dry_run a = false →
  if output_dir_ready E a s
  then ∃ s0 s1, files s0 = files s ∧ kubectl_log s0 = kubectl_log s ∧
         for_enumerate 1 (create_variable_combinations options)
           (batch_body E (Generator (arg_template_file a) (arg_output_dir a))
              (negb (arg_no_submit a)) (arg_cleanup a)
              (length (create_variable_combinations options)))
           (emit [Generating (length (create_variable_combinations options))]
              (reset_counters s0)) = (Ok (), s1) ∧
         ∃ events, main E a s = (Ok (), emit events s1)
  else main E a s = (Raise (OSError (arg_output_dir a)), s).
Proof.
  intros Hload Hdry. unfold main.
  rewrite (main_options E a s options) by done.
  rewrite Hdry. unfold output_dir_ready.
  set (combos := create_variable_combinations options).
  assert (Hrun : ∀ s0, files s0 = files s → kubectl_log s0 = kubectl_log s →
    init E (arg_template_file a) (arg_output_dir a) s
    = (Ok (Generator (arg_template_file a) (arg_output_dir a)), s0) →
    ∃ s0 s1, files s0 = files s ∧ kubectl_log s0 = kubectl_log s ∧
      for_enumerate 1 combos
        (batch_body E (Generator (arg_template_file a) (arg_output_dir a))
           (negb (arg_no_submit a)) (arg_cleanup a) (length combos))
        (emit [Generating (length combos)] (reset_counters s0)) = (Ok (), s1) ∧
      ∃ events,
        (init E (arg_template_file a) (arg_output_dir a) ≫= λ generator,
           generate_and_submit_batch E generator combos
             (negb (arg_no_submit a)) (arg_cleanup a);;
           when (negb (arg_no_submit a) && negb (arg_cleanup a))
             (print (FilesAvailableIn (arg_output_dir a)))) s
        = (Ok (), emit events s1)).
  { intros s0 Hf Hk Hinit.
    destruct (for_enumerate_batch_effect E
                (Generator (arg_template_file a) (arg_output_dir a))
                (negb (arg_no_submit a)) (arg_cleanup a) (length combos) combos 1
                (emit [Generating (length combos)] (reset_counters s0)))
      as (s1 & Hloop & _).
    exists s0, s1. split_and!; [done..|].
    rewrite (bind_Ok _ _ _ _ _ Hinit).
    rewrite (bind_Ok _ _ _ _ _ (generate_and_submit_batch_run _ _ _ _ _ _ _ Hloop)).
    unfold when. destruct (negb (arg_no_submit a) && negb (arg_cleanup a)).
    - eexists. unfold print. by rewrite emit_emit.
    - by eexists. }
  pose proof (init_cases E (arg_template_file a) (arg_output_dir a) s) as Hinit.
  destruct (decide (arg_output_dir a ∈ dirs s)) as [Hin|Hnin].
  - rewrite bool_decide_true by done. simpl. by apply (Hrun s).
  - rewrite bool_decide_false by done. simpl.
    destruct (mkdir_allowed E (arg_output_dir a)) eqn:Hmk.
    + by apply (Hrun (add_dir (arg_output_dir a) s)).
    + by apply bind_Raise.
Qed.

(** The same run with what it prints: after the loop, the summary of the
    state the loop ends in and, when the files were submitted and kept, the
    directory they are in. *)
Lemma main_batch_events E (a : args) (s : state) (options : variable_options) :
  variable_options_loaded E a s = Some options →
  arg_dry_run a = false →
  output_dir_ready E a s = true →
  ∃ s0, files s0 = files s ∧ kubectl_log s0 = kubectl_log s ∧
    stdout s0 = stdout s ∧
    ∀ s1,
      for_enumerate 1 (create_variable_combinations options)
        (batch_body E (Generator (arg_template_file a) (arg_output_dir a))
           (negb (arg_no_submit a)) (arg_cleanup a)
           (length (create_variable_combinations options)))
        (emit [Generating (length (create_variable_combinations options))]
           (reset_counters s0)) = (Ok (), s1) →
      main E a s
      = (Ok (),
         emit (summary (negb (arg_no_submit a)) s1 ++
               if negb (arg_no_submit a) && negb (arg_cleanup a)
               then [FilesAvailableIn (arg_output_dir a)] else []) s1).
Proof.
  intros Hload Hdry Hready. unfold main.
  rewrite (main_options E a s options) by done.
  rewrite Hdry.
  set (combos := create_variable_combinations options).
  assert (Hrun : ∀ s0 s1,
    init E (arg_template_file a) (arg_output_dir a) s
    = (Ok (Generator (arg_template_file a) (arg_output_dir a)), s0) →
    for_enumerate 1 combos
      (batch_body E (Generator (arg_template_file a) (arg_output_dir a))
         (negb (arg_no_submit a)) (arg_cleanup a) (length combos))
      (emit [Generating (length combos)] (reset_counters s0)) = (Ok (), s1) →
    (init E (arg_template_file a) (arg_output_dir a) ≫= λ generator,
       generate_and_submit_batch E generator combos
         (negb (arg_no_submit a)) (arg_cleanup a);;
       when (negb (arg_no_submit a) && negb (arg_cleanup a))
         (print (FilesAvailableIn (arg_output_dir a)))) s
    = (Ok (),
       emit (summary (negb (arg_no_submit a)) s1 ++
             if negb (arg_no_submit a) && negb (arg_cleanup a)
             then [FilesAvailableIn (arg_output_dir a)] else []) s1)).
  { intros s0 s1 Hinit Hloop.
    rewrite (bind_Ok _ _ _ _ _ Hinit).
    rewrite (bind_Ok _ _ _ _ _ (generate_and_submit_batch_run _ _ _ _ _ _ _ Hloop)).
    unfold when. destruct (negb (arg_no_submit a) && negb (arg_cleanup a)).
    - unfold print. by rewrite emit_emit.
    - by rewrite app_nil_r. }
  pose proof (init_cases E (arg_template_file a) (arg_output_dir a) s) as Hinit.
  unfold output_dir_ready in Hready.
  destruct (decide (arg_output_dir a ∈ dirs s)) as [Hin|Hnin].
  - exists s. split_and!; [done..|]. intros s1. by apply Hrun.
  - rewrite bool_decide_false in Hready by done. simpl in Hready.
    rewrite Hready in Hinit.
    exists (add_dir (arg_output_dir a) s). split_and!; [done..|].
    intros s1. by apply Hrun.
Qed.

(** Without options, [main] ends in an error before it does anything but
    print. *)
Lemma main_load_failure E (a : args) (s : state) :
  variable_options_loaded E a s = None →
  ∃ e events, main E a s = (Raise e, emit events s) ∧
              exit_status (@Raise () e) = 1.
Proof.
  unfold variable_options_loaded. intros Hload. unfold main.
  pose proof (load_variable_options_cases E a s) as Hrun.
  destruct (document_loaded E a s) as [[options|]|] eqn:Hdoc; simplify_eq.
  - exists (AttributeError "keys"), []. split; [|done]. rewrite emit_nil.
    rewrite (bind_Ok _ _ _ s NotAMapping) by (by apply try_except_Ok). done.
  - exists (SystemExit 1),
      [ErrorLoadingVariables
         match files s !! arg_variable_file a with
         | Some (Text _) => Exception "YAMLError"
         | Some Unreadable => OSError (arg_variable_file a)
         | None => FileNotFoundError (arg_variable_file a)
         end].
    split; [|done]. apply bind_Raise. rewrite (try_except_Raise _ _ _ _ _ Hrun).
    by destruct (files s !! arg_variable_file a) as [[?|]|].
Qed.

Lemma script_run E (a : args) (s : state) :
  script E a s
  = ((exit_status (main E a (emit [Here] s)).1), (main E a (emit [Here] s)).2).
Proof.
  unfold script. rewrite bind_print. by destruct (main E a (emit [Here] s)).
Qed.

(** C3 (as the code has it).  The exit status depends on two things only:
    the process exits with status one when the variable file cannot be
    loaded, or when, outside dry-run mode, the output directory cannot be
    created, and with status zero otherwise, whatever happens to the
    template, to the generated files and to the submissions.  A variable
    file that cannot be loaded stops the program before anything is
    generated.  A missing or unreadable template does not: every
    combination is announced and reported as a generation error, with the
    error of the template, the summary counts no generated document, no
    submission and no failure, no file is written, nothing is submitted,
    and the exit status is zero. *)
Theorem script_exit_status E (a : args) (s : state) :
  (script E a s).1
  = match variable_options_loaded E a s with
    | None => 1
    | Some _ => if arg_dry_run a || output_dir_ready E a s then 0 else 1
    end ∧
  (variable_options_loaded E a s = None →
   ∃ events, script E a s = (1, emit events s)) ∧
  (∀ options,
     variable_options_loaded E a s = Some options →
     arg_dry_run a = false →
     output_dir_ready E a s = true →
     (∀ t, files s !! arg_template_file a ≠ Some (Text t)) →
     (script E a s).1 = 0 ∧
     files (script E a s).2 = files s ∧
     kubectl_log (script E a s).2 = kubectl_log s ∧
     generated_files (script E a s).2 = [] ∧
     successful_submissions (script E a s).2 = 0 ∧
     stdout (script E a s).2
     = stdout s
       ++ [Here; Generating (length (create_variable_combinations options))]
       ++ error_reports (length (create_variable_combinations options))
            (template_error (arg_template_file a) s) 1
            (create_variable_combinations options)
       ++ [SummaryHeader; SummaryGenerated 0]
       ++ (if arg_no_submit a then [] else [SummarySubmitted 0; SummaryFailed 0])
       ++ (if negb (arg_no_submit a) && negb (arg_cleanup a)
           then [FilesAvailableIn (arg_output_dir a)] else []) ∧
     ∀ j variables,
       create_variable_combinations options !! j = Some variables →
       ErrorGeneratingJob (S j) (template_error (arg_template_file a) s)
       ∈ stdout (script E a s).2).
Proof.
  assert (Hfail : variable_options_loaded E a s = None →
            ∃ events, script E a s = (1, emit events s)).
  { intros Hload.
    destruct (main_load_failure E a (emit [Here] s) Hload) as (e & events & Hrun & He).
    eexists. rewrite script_run, Hrun, emit_emit. cbn [fst snd]. by rewrite He. }
  assert (Hbatch : ∀ options,
            variable_options_loaded E a s = Some options →
            arg_dry_run a = false →
            output_dir_ready E a s = true →
            (script E a s).1 = 0 ∧
            ((∀ t, files s !! arg_template_file a ≠ Some (Text t)) →
             files (script E a s).2 = files s ∧
             kubectl_log (script E a s).2 = kubectl_log s ∧
             generated_files (script E a s).2 = [] ∧
             successful_submissions (script E a s).2 = 0 ∧
             stdout (script E a s).2
             = stdout s
               ++ [Here; Generating (length (create_variable_combinations options))]
               ++ error_reports (length (create_variable_combinations options))
                    (template_error (arg_template_file a) s) 1
                    (create_variable_combinations options)
               ++ [SummaryHeader; SummaryGenerated 0]
               ++ (if arg_no_submit a then []
                   else [SummarySubmitted 0; SummaryFailed 0])
               ++ (if negb (arg_no_submit a) && negb (arg_cleanup a)
                   then [FilesAvailableIn (arg_output_dir a)] else []))).
  { intros options Hload Hdry Hready.
    destruct (main_batch_events E a (emit [Here] s) options Hload Hdry Hready)
      as (s0 & Hf & Hk & Hout & Hrun).
    set (combos := create_variable_combinations options) in *.
    set (self := Generator (arg_template_file a) (arg_output_dir a)) in *.
    split.
    - destruct (for_enumerate_batch_effect E self
                  (negb (arg_no_submit a)) (arg_cleanup a) (length combos) combos 1
                  (emit [Generating (length combos)] (reset_counters s0)))
        as (s1 & Hloop & _).
      by rewrite script_run, (Hrun s1 Hloop).
    - intros Ht.
      pose proof (for_enumerate_template_error E self
                    (negb (arg_no_submit a)) (arg_cleanup a) (length combos) combos 1
                    (emit [Generating (length combos)] (reset_counters s0))) as Hloop.
      assert (Herr : template_error (template_file self)
                       (emit [Generating (length combos)] (reset_counters s0))
                     = template_error (arg_template_file a) s).
      { unfold template_error. simpl. by rewrite Hf. }
      rewrite Herr in Hloop.
      rewrite script_run, (Hrun _ (Hloop ltac:(intros t; simpl; rewrite Hf; apply Ht))).
      simpl. rewrite Hf, Hk, Hout. simpl. split_and!; [done..|].
      unfold summary. simpl.
      destruct (arg_no_submit a), (arg_cleanup a); simpl;
        by rewrite <- ?app_assoc. }
  split_and!; [|done|].
  - destruct (variable_options_loaded E a s) as [options|] eqn:Hload.
    + destruct (arg_dry_run a) eqn:Hdry.
      * by rewrite (script_dry_run E a s options).
      * simpl. destruct (output_dir_ready E a s) eqn:Hready.
        -- by apply (Hbatch options).
        -- pose proof (main_batch E a (emit [Here] s) options Hload Hdry) as Hrun.
           change (output_dir_ready E a (emit [Here] s))
             with (output_dir_ready E a s) in Hrun.
           rewrite Hready in Hrun. by rewrite script_run, Hrun.
    + destruct (Hfail eq_refl) as (events & ->). done.
  - intros options Hload Hdry Hready Ht.
    destruct (Hbatch options Hload Hdry Hready) as [Hexit Hrest].
    destruct (Hrest Ht) as (Hfiles & Hlog & Hgen & Hsucc & Hout).
    split_and!; [done..|].
    intros j variables Hj. rewrite Hout.
    apply elem_of_app. right. apply elem_of_app. right.
    apply elem_of_app. left.
    by apply (error_reports_elem _ _ 1 _ j variables).
Qed.

Lemma script_exit_status_witness :
  (script example_env
     (Args "missing.yaml" "variables.yaml" "batch_job" false true false)
     example_state).1 = 0 ∧
  files (script example_env
           (Args "missing.yaml" "variables.yaml" "batch_job" false true false)
           example_state).2 = files example_state ∧
  ErrorGeneratingJob 4
    (FileNotFoundError "Template file 'missing.yaml' not found")
  ∈ stdout (script example_env
              (Args "missing.yaml" "variables.yaml" "batch_job" false true false)
              example_state).2.
Proof.
  destruct (script_exit_status example_env
              (Args "missing.yaml" "variables.yaml" "batch_job" false true false)
              example_state) as (_ & _ & Hmissing).
  destruct (Hmissing [("a", [VInt 1; VInt 2]); ("b", [VStr "p"; VStr "q"])]
              eq_refl eq_refl eq_refl) as (Hexit & Hfiles & _ & _ & _ & _ & Hreport).
  - intros t. vm_compute. discriminate.
  - split_and!; [exact Hexit|exact Hfiles|].
    exact (Hreport 3 [("a", VInt 2); ("b", VStr "q")] eq_refl).
Defined.

(** C3 fails as stated: the template file does not exist, and the process
    exits with status zero after reporting each of the four combinations. *)
Lemma script_missing_template_exit_zero :
  files example_state !! "missing.yaml" = None ∧
  (script example_env
     (Args "missing.yaml" "variables.yaml" "batch_job" false true false)
     example_state).1 = 0.
Proof. split; vm_compute; reflexivity. Qed.

(** C7 (as the code has it).  Take a job whose document is generated.  If
    the submission tool does not complete for it (it exits non-zero, is
    missing, or cannot be started), then, cleanup requested or not, the
    document is on disk after the job, the job is added to the generated
    files and not to the successful submissions, so the count of failures
    grows by one, and the loop goes on with the next combination; at the
    end of the loop the failure is still counted, and the document is still
    on disk provided no later combination is written to the same path.  A
    job deletes its document only when its own submission completed and
    cleanup was requested, and then it deletes it whenever the system
    allows it.  The summary reports the generated files minus the
    successful submissions as failures. *)
Theorem failed_submission_keeps_file E self submit_jobs cleanup n i
    (variables : dict) (rest : list dict) (s : state) template_content :
  files s !! template_file self = Some (Text template_content) →
  writable E (job_file_path_of E self variables) = true →
  ∃ s', batch_body E self submit_jobs cleanup n i variables s = (Ok (), s') ∧
    generated_files s' = generated_files s ++ [job_file_path_of E self variables] ∧
    (submit_jobs = true →
     (∀ out, kubectl E (length (kubectl_log s)) (job_file_path_of E self variables)
             ≠ Completed out) →
     files s' = <[job_file_path_of E self variables :=
                    Text (substitute_variables template_content variables)]> (files s) ∧
     successful_submissions s' = successful_submissions s ∧
     failed_submissions s' = (failed_submissions s + 1)%Z ∧
     for_enumerate i (variables :: rest)
       (batch_body E self submit_jobs cleanup n) s
     = for_enumerate (S i) rest (batch_body E self submit_jobs cleanup n) s' ∧
     ∃ s'', for_enumerate (S i) rest (batch_body E self submit_jobs cleanup n) s'
            = (Ok (), s'') ∧
       (failed_submissions s + 1 ≤ failed_submissions s'')%Z ∧
       ((∀ c, c ∈ rest →
              job_file_path_of E self variables ≠ job_file_path_of E self c) →
        files s'' !! job_file_path_of E self variables
        = Some (Text (substitute_variables template_content variables)))) ∧
    (files s' !! job_file_path_of E self variables = None →
     submit_jobs = true ∧ cleanup = true ∧
     ∃ out, kubectl E (length (kubectl_log s)) (job_file_path_of E self variables)
            = Completed out) ∧
    (submit_jobs = true → cleanup = true →
     removable E (job_file_path_of E self variables) = true →
     (∃ out, kubectl E (length (kubectl_log s)) (job_file_path_of E self variables)
             = Completed out) →
     files s' !! job_file_path_of E self variables = None) ∧
    ∀ combos (s0 s1 : state),
      for_enumerate 1 combos (batch_body E self true cleanup (length combos))
        (emit [Generating (length combos)] (reset_counters s0)) = (Ok (), s1) →
      generate_and_submit_batch E self combos true cleanup s0
      = (Ok (generated_files s1),
         emit [SummaryHeader; SummaryGenerated (length (generated_files s1));
               SummarySubmitted (successful_submissions s1);
               SummaryFailed (failed_submissions s1)] s1).
Proof.
  intros Ht Hw.
  set (p := job_file_path_of E self variables) in *.
  set (content := substitute_variables template_content variables).
  pose proof (batch_body_cases E self submit_jobs cleanup n i variables s) as Hrun.
  cbn zeta in Hrun. fold p in Hrun. rewrite Ht, Hw in Hrun. fold content in Hrun.
  assert (Hlast : ∀ combos (s0 s1 : state),
    for_enumerate 1 combos (batch_body E self true cleanup (length combos))
      (emit [Generating (length combos)] (reset_counters s0)) = (Ok (), s1) →
    generate_and_submit_batch E self combos true cleanup s0
    = (Ok (generated_files s1),
       emit [SummaryHeader; SummaryGenerated (length (generated_files s1));
             SummarySubmitted (successful_submissions s1);
             SummaryFailed (failed_submissions s1)] s1)).
  { intros combos s0 s1 Hloop.
    by rewrite (generate_and_submit_batch_run _ _ _ _ _ _ _ Hloop). }
  assert (Hfail : ∀ s', batch_body E self submit_jobs cleanup n i variables s
                        = (Ok (), s') →
    files s' = <[p := Text content]> (files s) →
    generated_files s' = generated_files s ++ [p] →
    successful_submissions s' = successful_submissions s →
    files s' = <[p := Text content]> (files s) ∧
    successful_submissions s' = successful_submissions s ∧
    failed_submissions s' = (failed_submissions s + 1)%Z ∧
    for_enumerate i (variables :: rest)
      (batch_body E self submit_jobs cleanup n) s
    = for_enumerate (S i) rest (batch_body E self submit_jobs cleanup n) s' ∧
    ∃ s'', for_enumerate (S i) rest (batch_body E self submit_jobs cleanup n) s'
           = (Ok (), s'') ∧
      (failed_submissions s + 1 ≤ failed_submissions s'')%Z ∧
      ((∀ c, c ∈ rest → p ≠ job_file_path_of E self c) →
       files s'' !! p = Some (Text content))).
  { intros s' Hbody Hfiles Hgen Hsucc.
    assert (Hcount : failed_submissions s' = (failed_submissions s + 1)%Z).
    { unfold failed_submissions. rewrite Hgen, Hsucc, length_app. simpl. lia. }
    split_and!; [done..| |].
    - cbn [for_enumerate]. by rewrite (bind_Ok _ _ _ _ _ Hbody).
    - destruct (for_enumerate_batch_effect E self submit_jobs cleanup n rest (S i) s')
        as (s'' & Hloop & _ & Hframe & Hmono & _).
      exists s''. split_and!; [done|lia|].
      intros Hrest. rewrite Hframe by done. rewrite Hfiles. apply lookup_insert_eq. }
  destruct submit_jobs.
  - destruct (kubectl E (length (kubectl_log s)) p) as [out|err| |] eqn:Hk.
    + destruct cleanup; [destruct (removable E p) eqn:Hrm|].
      * eexists. split; [exact Hrun|]. simpl.
        split_and!; [done|intros _ Hne; by destruct (Hne out)|by eauto| |done].
        intros _ _ _ _. apply lookup_delete_eq.
      * eexists. split; [exact Hrun|]. simpl.
        split_and!; [done|intros _ Hne; by destruct (Hne out)|by eauto|done|done].
      * eexists. split; [exact Hrun|]. simpl.
        split_and!; [done|intros _ Hne; by destruct (Hne out)| |done|done].
        by rewrite lookup_insert_eq.
    + eexists. split; [exact Hrun|].
      split_and!; [done|intros _ _; by apply (Hfail _ Hrun)| | |done].
      * simpl. by rewrite lookup_insert_eq.
      * by intros _ _ _ [out [=]].
    + eexists. split; [exact Hrun|].
      split_and!; [done|intros _ _; by apply (Hfail _ Hrun)| | |done].
      * simpl. by rewrite lookup_insert_eq.
      * by intros _ _ _ [out [=]].
    + eexists. split; [exact Hrun|].
      split_and!; [done|intros _ _; by apply (Hfail _ Hrun)| | |done].
      * simpl. by rewrite lookup_insert_eq.
      * by intros _ _ _ [out [=]].
  - eexists. split; [exact Hrun|]. simpl.
    split_and!; [done|done| |done|done].
    by rewrite lookup_insert_eq.
Qed.


Lemma failed_submission_keeps_file_witness :
  files (for_enumerate 1 [[("a", VInt 1)]; [("a", VInt 2)]]
           (batch_body colliding_env (Generator "template.yaml" "batch_job")
              true true 2) colliding_state).2
    !! "batch_job/job_a_1.yaml"
  = Some (Text "x=1 y=$(b)") ∧
  failed_submissions
    (batch_body colliding_env (Generator "template.yaml" "batch_job")
       true true 2 1 [("a", VInt 1)] colliding_state).2 = 1%Z.
Proof.
  destruct (failed_submission_keeps_file colliding_env
              (Generator "template.yaml" "batch_job") true true 2 1
              [("a", VInt 1)] [[("a", VInt 2)]] colliding_state "x=$(a) y=$(b)")
    as (s' & Hrun & _ & Hfail & _).
  - vm_compute. reflexivity.
  - reflexivity.
  - destruct Hfail as (_ & _ & Hcount & Hstep & s'' & Hloop & _ & Hkeep).
    + reflexivity.
    + intros out. discriminate.
    + split.
      * rewrite Hstep, Hloop. cbn [snd]. apply Hkeep.
        intros c Hc. apply list_elem_of_singleton in Hc. subst c.
        vm_compute. discriminate.
      * rewrite Hrun. cbn [snd]. exact Hcount.
Defined.

(** C7 fails as stated: the options [{a: [1, '1']}] give two combinations
    that are written to the same path.  The submission of the first is
    rejected and its document is on disk after the job; the submission of
    the second completes and, cleanup being requested, deletes the document
    at that path.  At the end of the batch the summary counts one failed
    submission, and no document is on disk. *)
Lemma failed_submission_file_removed :
  files colliding_state !! "variables.yaml" = Some (Text "a: [1, '1']") ∧
  variable_options_loaded colliding_env
    (Args "template.yaml" "variables.yaml" "batch_job" false true false)
    colliding_state
  = Some [("a", [VInt 1; VStr "1"])] ∧
  create_variable_combinations [("a", [VInt 1; VStr "1"])]
  = [[("a", VInt 1)]; [("a", VStr "1")]] ∧
  job_file_path_of colliding_env (Generator "template.yaml" "batch_job")
    [("a", VInt 1)] = "batch_job/job_a_1.yaml" ∧
  job_file_path_of colliding_env (Generator "template.yaml" "batch_job")
    [("a", VStr "1")] = "batch_job/job_a_1.yaml" ∧
  kubectl colliding_env 0 "batch_job/job_a_1.yaml" = ExitNonZero "forbidden" ∧
  files (batch_body colliding_env (Generator "template.yaml" "batch_job")
           true true 2 1 [("a", VInt 1)] colliding_state).2
    !! "batch_job/job_a_1.yaml" = Some (Text "x=1 y=$(b)") ∧
  (script colliding_env
     (Args "template.yaml" "variables.yaml" "batch_job" false true false)
     colliding_state).1 = 0 ∧
  last (stdout (script colliding_env
                  (Args "template.yaml" "variables.yaml" "batch_job"
                     false true false)
                  colliding_state).2) = Some (SummaryFailed 1) ∧
  files (script colliding_env
           (Args "template.yaml" "variables.yaml" "batch_job" false true false)
           colliding_state).2
    !! "batch_job/job_a_1.yaml" = None.
Proof. split_and!; vm_compute; reflexivity. Qed.

(** ** The empty mapping *)

(** A job whose document is generated is added to the generated files; with
    no submission, its document is all the job leaves. *)
Lemma batch_body_generated E self submit_jobs cleanup n i (variables : dict)
    (s : state) template_content :
  files s !! template_file self = Some (Text template_content) →
  writable E (job_file_path_of E self variables) = true →
  ∃ s', batch_body E self submit_jobs cleanup n i variables s = (Ok (), s') ∧
    generated_files s' = generated_files s ++ [job_file_path_of E self variables] ∧
    (submit_jobs = false →
     files s' = <[job_file_path_of E self variables :=
                    Text (substitute_variables template_content variables)]> (files s)).
Proof.
  intros Ht Hw. rewrite batch_body_cases. cbn zeta. rewrite Ht, Hw.
  destruct submit_jobs; [|by eexists].
  destruct (kubectl E _ _); [destruct cleanup; [destruct (removable E _)|]|..];
    by eexists.
Qed.

(** C10.  For the empty mapping the enumerator returns one combination, the
    empty one; substituting it changes nothing; and the batch generates one
    document, [job_.yaml], which, left on disk when nothing is submitted,
    holds the template as it is. *)
Theorem empty_options_one_document E (a : args) (s : state) template_content :
  variable_options_loaded E a s = Some [] →
  arg_dry_run a = false →
  output_dir_ready E a s = true →
  files s !! arg_template_file a = Some (Text template_content) →
  writable E (joinpath E (arg_output_dir a) "job_.yaml") = true →
  create_variable_combinations [] = [[]] ∧
  substitute_variables template_content [] = template_content ∧
  (script E a s).1 = 0 ∧
  generated_files (script E a s).2 = [joinpath E (arg_output_dir a) "job_.yaml"] ∧
  (arg_no_submit a = true →
   files (script E a s).2
   = <[joinpath E (arg_output_dir a) "job_.yaml" := Text template_content]> (files s)).
Proof.
  intros Hload Hdry Hready Ht Hw. split; [done|]. split; [done|].
  pose proof (main_batch E a (emit [Here] s) [] Hload Hdry) as Hrun.
  change (output_dir_ready E a (emit [Here] s)) with (output_dir_ready E a s) in Hrun.
  rewrite Hready in Hrun.
  destruct Hrun as (s0 & s1 & Hf & Hk & Hloop & events & Hrun).
  rewrite script_run, Hrun.
  change (create_variable_combinations []) with [@nil (string * value)] in Hloop.
  cbn [for_enumerate length] in Hloop.
  destruct (batch_body_generated E
              (Generator (arg_template_file a) (arg_output_dir a))
              (negb (arg_no_submit a)) (arg_cleanup a) 1 1 []
              (emit [Generating 1] (reset_counters s0)) template_content)
    as (s' & Hbody & Hgen & Hfiles); [simpl in *; by rewrite Hf|done|].
  rewrite (bind_Ok _ _ _ _ _ Hbody) in Hloop. injection Hloop as <-.
  split_and!; [done|done|].
  intros Hns. rewrite Hns in Hfiles. cbn [snd files emit].
  rewrite Hfiles by done. simpl. by rewrite Hf.
Qed.

Lemma empty_options_one_document_witness :
  generated_files
    (script empty_options_env
       (Args "template.yaml" "variables.yaml" "batch_job" true false false)
       example_state).2
  = ["batch_job/job_.yaml"] ∧
  files
    (script empty_options_env
       (Args "template.yaml" "variables.yaml" "batch_job" true false false)
       example_state).2 !! "batch_job/job_.yaml"
  = Some (Text "x=$(a) y=$(b)").
Proof.
  destruct (empty_options_one_document empty_options_env
              (Args "template.yaml" "variables.yaml" "batch_job" true false false)
              example_state "x=$(a) y=$(b)")
    as (_ & _ & _ & Hgen & Hfiles).
  - reflexivity.
  - reflexivity.
  - reflexivity.
  - vm_compute. reflexivity.
  - reflexivity.
  - split; [exact Hgen|]. rewrite (Hfiles eq_refl). apply lookup_insert_eq.
Defined.

(** ** Further properties *)

(** Variables the template does not mention change nothing: on a
    well-formed template, a combination extended by a variable that has no
    placeholder in the template gives the same document. *)
Theorem substitute_variables_unused (segs : list segment) (variables : dict) k v :
  Forall wf_segment segs →
  wf_variables (variables ++ [(k, v)]) →
  Ph k ∉ segs →
  substitute_variables (render segs) (variables ++ [(k, v)])
  = substitute_variables (render segs) variables.
Proof.
  intros Hwf Hvars Hk. unfold wf_variables in Hvars.
  apply Forall_app in Hvars as [Hvars Hkv].
  apply Forall_singleton in Hkv as [Hclose _].
  rewrite substitute_variables_snoc.
  destruct (substitute_variables_render segs variables Hwf Hvars) as [-> Hwf'].
  rewrite str_replace_render by done. f_equal.
  assert (Hno : Ph k ∉ passes variables segs).
  { intros [Hin _]%elem_of_passes. by apply Hk. }
  clear Hwf'. induction (passes variables segs) as [|seg segs' IH]; [done|].
  apply not_elem_of_cons in Hno as [Hseg Hno]. rewrite fmap_cons, IH by done.
  f_equal. destruct seg as [t|n]; [done|]. simpl.
  case_decide; [by subst|done].
Qed.

Lemma substitute_variables_unused_witness :
  substitute_variables "x=$(a)" [("a", VInt 1); ("b", VStr "p")]
  = substitute_variables "x=$(a)" [("a", VInt 1)].
Proof.
  apply (substitute_variables_unused [Lit "x="; Ph "a"] [("a", VInt 1)] "b" (VStr "p")).
  - repeat constructor.
  - repeat constructor.
  - intros Hin. repeat (apply elem_of_cons in Hin as [Hin|Hin]; [discriminate|]).
    by apply elem_of_nil in Hin.
Defined.

(** A batch always returns: it gives back the generated files, at most one
    per combination, and its summary never reports more successful
    submissions than generated files. *)
Theorem generate_and_submit_batch_counts E self (combos : list dict)
    submit_jobs cleanup (s : state) :
  ∃ s', generate_and_submit_batch E self combos submit_jobs cleanup s
        = (Ok (generated_files s'), emit (summary submit_jobs s') s') ∧
        length (generated_files s') ≤ length combos ∧
        successful_submissions s' ≤ length (generated_files s') ∧
        dirs s' = dirs s.
Proof.
  destruct (for_enumerate_batch_effect E self submit_jobs cleanup (length combos)
              combos 1 (emit [Generating (length combos)] (reset_counters s)))
    as (s' & Hloop & Hdirs & _ & Hfailed & Hlen).
  exists s'. rewrite (generate_and_submit_batch_run _ _ _ _ _ _ _ Hloop).
  unfold failed_submissions in Hfailed. simpl in *.
  split_and!; [done|lia|lia|done].
Qed.

(** ** The command tokenizer *)

Lemma no_space_app (s t : string) :
  no_space (s +:+ t) = no_space s && no_space t.
Proof.
  induction s as [|c s IH]; [done|].
  rewrite app_String. cbn [no_space]. by rewrite IH, andb_assoc.
Qed.

Lemma is_ascii_app (s t : string) :
  is_ascii (s +:+ t) = is_ascii s && is_ascii t.
Proof.
  induction s as [|c s IH]; [done|].
  rewrite app_String. cbn [is_ascii]. by rewrite IH, andb_assoc.
Qed.

Lemma string_app_nil_inv (s t : string) : s +:+ t = "" → s = "" ∧ t = "".
Proof. destruct s; [done|]. by rewrite app_String. Qed.

(** A word is read to its end, whatever was read before it. *)
Lemma split_go_word (word w s : string) :
  no_space w = true → split_go word (w +:+ s) = split_go (word +:+ w) s.
Proof.
  revert word. induction w as [|c w IH]; intros word Hw.
  - by rewrite string_app_nil_r.
  - cbn [no_space] in Hw. apply andb_prop in Hw as [Hc Hw].
    apply negb_true_iff in Hc. rewrite app_String. cbn [split_go]. rewrite Hc.
    rewrite IH by done. f_equal. rewrite string_app_assoc. done.
Qed.

(** The words [split] returns, given the word being read. *)
Lemma split_go_words (word s : string) :
  no_space word = true → is_ascii word = true → is_ascii s = true →
  Forall is_word (split_go word s).
Proof.
  revert word. induction s as [|c s IH]; intros word Hw Ha Hs.
  - destruct word; [constructor|]. by repeat constructor.
  - cbn [is_ascii] in Hs. apply andb_prop in Hs as [Hc Hs].
    cbn [split_go]. destruct (py_isspace c) eqn:Hsp.
    + destruct word as [|c' word]; [by apply IH|].
      constructor; [done|]. by apply IH.
    + apply IH; [| |done].
      * rewrite no_space_app, Hw. cbn [no_space]. by rewrite Hsp.
      * rewrite is_ascii_app, Ha. cbn [is_ascii]. by rewrite Hc.
Qed.

Lemma concat_cons_cons sep (w w' : string) (l : list string) :
  String.concat sep (w :: w' :: l) = w +:+ sep +:+ String.concat sep (w' :: l).
Proof. done. Qed.

(** The words of an ASCII text are not empty and hold no white space. *)
Theorem command_args_words (command : string) :
  is_ascii command = true → Forall is_word (command_args command).
Proof. intros Ha. by apply split_go_words. Qed.

Lemma command_args_words_witness :
  Forall is_word (command_args "python train.py  --lr 0.0001").
Proof. apply command_args_words. reflexivity. Defined.

(** Joining words with single spaces and splitting the line gives the
    words back: the argument list and the command line carry the same
    tokens. *)
Theorem command_args_command_line (cmd_list : list string) :
  Forall is_word cmd_list →
  command_args (command_line cmd_list) = cmd_list.
Proof.
  unfold command_args, command_line, str_split.
  induction 1 as [|w l (Hne & _ & Hw) Hl IH]; [done|].
  destruct l as [|w' l].
  - cbn [String.concat].
    rewrite <- (string_app_nil_r w), split_go_word, string_app_nil_l by done.
    rewrite string_app_nil_r. by destruct w.
  - rewrite concat_cons_cons, split_go_word, string_app_nil_l by done.
    change (" " +:+ ?x) with (String " " x). cbn [split_go].
    change (py_isspace " ") with true. cbn match. rewrite IH.
    by destruct w.
Qed.

Lemma command_args_command_line_witness :
  command_args (command_line ["/volume/code/train.py"; "--lr"; "1e-4"])
  = ["/volume/code/train.py"; "--lr"; "1e-4"].
Proof.
  apply command_args_command_line. repeat constructor; discriminate.
Defined.

(** ** The generator, operation by operation *)

(** Creating a generator makes the output directory if it is not there and
    touches nothing else: the directories afterwards are those there were
    and the output directory, no other, the state is the same when the
    directory was there, and files, runs of the submission tool, output and
    counters are as they were.  Once a generator was created, creating it
    again changes nothing and cannot fail.  It fails only when the
    directory is missing and cannot be made, and then changes nothing. *)
Theorem init_exist_ok E (template_file output_dir : string) (s : state) :
  match init E template_file output_dir s with
  | (Ok generator, s') =>
      generator = Generator template_file output_dir ∧
      output_dir ∈ dirs s' ∧
      (∀ dir, dir ∈ dirs s → dir ∈ dirs s') ∧
      dirs s' = {[output_dir]} ∪ dirs s ∧
      (output_dir ∈ dirs s → s' = s) ∧
      files s' = files s ∧ kubectl_log s' = kubectl_log s ∧ stdout s' = stdout s ∧
      generated_files s' = generated_files s ∧
      successful_submissions s' = successful_submissions s ∧
      init E template_file output_dir s' = (Ok generator, s')
  | (Raise e, s') =>
      s' = s ∧ e = OSError output_dir ∧ output_dir ∉ dirs s ∧
      mkdir_allowed E output_dir = false
  end.
Proof.
  rewrite init_cases. destruct (decide (output_dir ∈ dirs s)) as [Hin|Hnin].
  - split_and!; [done|done|done| |done..|].
    + apply leibniz_equiv. set_solver.
    + by rewrite init_cases, decide_True.
  - destruct (mkdir_allowed E output_dir) eqn:Hmk; [|done].
    assert (Hnew : output_dir ∈ dirs (add_dir output_dir s)).
    { simpl. apply elem_of_union_l, elem_of_singleton. done. }
    split_and!; [done|done| |done|done|done..|].
    + intros dir Hdir. simpl. by apply elem_of_union_r.
    + by rewrite init_cases, decide_True.
Qed.

(** Loading the template never changes the state.  It returns the content
    of the template file exactly when the file is readable; a missing file
    raises [FileNotFoundError] with a message that names it, an unreadable
    one raises [Exception], and both are caught by [except Exception]. *)
Theorem load_template_cases (self : KubernetesJobGenerator) (s : state) :
  (load_template self s).2 = s ∧
  (∀ content, (load_template self s).1 = Ok content ↔
              files s !! template_file self = Some (Text content)) ∧
  (files s !! template_file self = None →
   (load_template self s).1
   = Raise (FileNotFoundError
              ("Template file '" +:+ template_file self +:+ "' not found"))) ∧
  (files s !! template_file self = Some Unreadable →
   (load_template self s).1
   = Raise (Exception ("Error reading template file: " +:+ template_file self))) ∧
  (∀ e, (load_template self s).1 = Raise e → is_Exception e = true).
Proof.
  unfold load_template, try_except, read_file.
  destruct (files s !! template_file self) as [[t|]|]; simpl.
  - split_and!; [done| |done..]. intros content. split; congruence.
  - split_and!; [done| |done|done|]; [|by intros e [= <-]].
    intros content. split; congruence.
  - split_and!; [done| |done|done|]; [|by intros e [= <-]].
    intros content. split; congruence.
Qed.

(** Generating a document either fails, with an exception the loop catches
    and no change of state, or writes one file: the path returned is the
    output directory joined with the name ([job_name] followed by [.yaml]
    when a job name is given); reading that path back gives the template with
    the variables substituted; every other file, the directories, the
    output and the record of submissions are as before. *)
Theorem generate_job_file_writes E self (variables : dict) job_name (s : state) :
  match generate_job_file E self variables job_name s with
  | (Ok job_file_path, s') =>
      job_file_path = joinpath E (output_dir self) (job_filename variables job_name) ∧
      (∀ name, job_name = Some name →
               job_file_path = joinpath E (output_dir self) (name +:+ ".yaml")) ∧
      (∃ template_content,
         files s !! template_file self = Some (Text template_content) ∧
         read_file job_file_path s'
         = (Ok (substitute_variables template_content variables), s')) ∧
      (∀ q, q ≠ job_file_path → files s' !! q = files s !! q) ∧
      dirs s' = dirs s ∧ kubectl_log s' = kubectl_log s ∧ stdout s' = stdout s
  | (Raise e, s') => s' = s ∧ is_Exception e = true
  end.
Proof.
  rewrite generate_job_file_cases.
  destruct (files s !! template_file self) as [[t|]|]; [|done..].
  cbn zeta. destruct (writable E _); [|done].
  split_and!; [done| |..|done|done|done].
  - by intros name ->.
  - exists t. split; [done|]. unfold read_file. simpl.
    by rewrite lookup_insert_eq.
  - intros q Hq. simpl. by rewrite lookup_insert_ne.
Qed.

(** Submitting a job runs the tool exactly once, on the given path, and
    touches no file.  It returns true exactly when the tool completes with a
    zero status, false when the tool exits non-zero or is not installed, and
    lets the error through when the tool cannot be started. *)
Theorem submit_job_outcome E self (job_file_path : string) (s : state) :
  kubectl_log (submit_job E self job_file_path s).2
  = kubectl_log s ++ [job_file_path] ∧
  files (submit_job E self job_file_path s).2 = files s ∧
  dirs (submit_job E self job_file_path s).2 = dirs s ∧
  ((submit_job E self job_file_path s).1 = Ok true ↔
   ∃ out, kubectl E (length (kubectl_log s)) job_file_path = Completed out) ∧
  ((submit_job E self job_file_path s).1 = Ok false ↔
   (∃ err, kubectl E (length (kubectl_log s)) job_file_path = ExitNonZero err) ∨
   kubectl E (length (kubectl_log s)) job_file_path = NotInstalled) ∧
  ((submit_job E self job_file_path s).1 = Raise (OSError "kubectl") ↔
   kubectl E (length (kubectl_log s)) job_file_path = SpawnFailed).
Proof.
  rewrite submit_job_cases.
  destruct (kubectl E (length (kubectl_log s)) job_file_path) as [out|err| |];
    cbn [fst snd]; split_and!; try done; naive_solver.
Qed.

(** ** The batch, as a whole *)

Lemma completed_runs_app E n (l1 l2 : list string) :
  completed_runs E n (l1 ++ l2)
  = completed_runs E n l1 + completed_runs E (n + length l1) l2.
Proof.
  revert n. induction l1 as [|p l1 IH]; intros n; simpl.
  - by rewrite Nat.add_0_r.
  - rewrite IH. replace (S n + length l1) with (n + S (length l1)) by lia. lia.
Qed.

(** One job adds at most one generated file; when jobs are submitted, the
    tool is run on that file and on nothing else, and the job counts as
    successful exactly when the run completes. *)
Lemma batch_body_runs E self submit_jobs cleanup n i (variables : dict) (s : state) :
  ∃ s' new,
    batch_body E self submit_jobs cleanup n i variables s = (Ok (), s') ∧
    generated_files s' = generated_files s ++ new ∧
    kubectl_log s' = kubectl_log s ++ (if submit_jobs then new else []) ∧
    successful_submissions s'
    = successful_submissions s
      + (if submit_jobs then completed_runs E (length (kubectl_log s)) new else 0).
Proof.
  rewrite batch_body_cases. cbn zeta.
  destruct (files s !! template_file self) as [[t|]|];
    [|eexists _, []; (split; [reflexivity|]); destruct submit_jobs; simpl;
       rewrite ?app_nil_r; split_and!; (done || lia)..].
  destruct (writable E _);
    [|eexists _, []; (split; [reflexivity|]); destruct submit_jobs; simpl;
       rewrite ?app_nil_r; split_and!; (done || lia)].
  destruct submit_jobs.
  - destruct (kubectl E (length (kubectl_log s)) (job_file_path_of E self variables))
      as [out|err| |] eqn:Hk;
      [destruct cleanup; [destruct (removable E _)|]|..];
      eexists _, [job_file_path_of E self variables];
      (split; [reflexivity|]); simpl; rewrite Hk;
      split_and!; (done || lia).
  - eexists _, [job_file_path_of E self variables].
    split; [reflexivity|]. simpl. rewrite app_nil_r. split_and!; (done || lia).
Qed.

Lemma for_enumerate_batch_runs E self submit_jobs cleanup n (combos : list dict) i0
    (s : state) :
  ∃ s' new,
    for_enumerate i0 combos (batch_body E self submit_jobs cleanup n) s = (Ok (), s') ∧
    generated_files s' = generated_files s ++ new ∧
    kubectl_log s' = kubectl_log s ++ (if submit_jobs then new else []) ∧
    successful_submissions s'
    = successful_submissions s
      + (if submit_jobs then completed_runs E (length (kubectl_log s)) new else 0).
Proof.
  revert i0 s. induction combos as [|c combos IH]; intros i0 s.
  - exists s, []. destruct submit_jobs; simpl; rewrite ?app_nil_r;
      split_and!; (done || lia).
  - destruct (batch_body_runs E self submit_jobs cleanup n i0 c s)
      as (s1 & new1 & Hrun1 & Hgen1 & Hlog1 & Hsucc1).
    destruct (IH (S i0) s1) as (s2 & new2 & Hrun2 & Hgen2 & Hlog2 & Hsucc2).
    exists s2, (new1 ++ new2). cbn [for_enumerate].
    rewrite (bind_Ok _ _ _ _ _ Hrun1), Hrun2.
    split_and!; [done|by rewrite Hgen2, Hgen1, app_assoc| |].
    + rewrite Hlog2, Hlog1. destruct submit_jobs; by rewrite <- ?app_assoc.
    + rewrite Hsucc2, Hsucc1, Hlog1. destruct submit_jobs; [|lia].
      rewrite completed_runs_app, length_app. lia.
Qed.

(** When jobs are submitted, the tool is run once on each generated file, in
    the order of generation, and on nothing else; when they are not, it is
    never run.  The number of successful submissions the summary reports is
    the number of those runs that completed. *)
Theorem generate_and_submit_batch_runs E self (combos : list dict)
    submit_jobs cleanup (s : state) :
  (generate_and_submit_batch E self combos submit_jobs cleanup s).1
  = Ok (generated_files
          (generate_and_submit_batch E self combos submit_jobs cleanup s).2) ∧
  kubectl_log (generate_and_submit_batch E self combos submit_jobs cleanup s).2
  = kubectl_log s ++
    (if submit_jobs
     then generated_files
            (generate_and_submit_batch E self combos submit_jobs cleanup s).2
     else []) ∧
  successful_submissions
    (generate_and_submit_batch E self combos submit_jobs cleanup s).2
  = (if submit_jobs
     then completed_runs E (length (kubectl_log s))
            (generated_files
               (generate_and_submit_batch E self combos submit_jobs cleanup s).2)
     else 0).
Proof.
  destruct (for_enumerate_batch_runs E self submit_jobs cleanup (length combos)
              combos 1 (emit [Generating (length combos)] (reset_counters s)))
    as (s' & new & Hloop & Hgen & Hlog & Hsucc).
  rewrite (generate_and_submit_batch_run _ _ _ _ _ _ _ Hloop).
  simpl in *. subst new. by rewrite Hlog, Hsucc.
Qed.

(** Without cleanup, or without submission, a job deletes no file. *)
Lemma batch_body_keeps E self submit_jobs cleanup n i (variables : dict) (s : state) :
  cleanup = false ∨ submit_jobs = false →
  ∃ s', batch_body E self submit_jobs cleanup n i variables s = (Ok (), s') ∧
        ∀ q, is_Some (files s !! q) → is_Some (files s' !! q).
Proof.
  intros Hflags. rewrite batch_body_cases. cbn zeta.
  destruct (files s !! template_file self) as [[t|]|]; [|by eexists..].
  destruct (writable E _); [|by eexists].
  assert (Hkeep : ∀ (x : file) q, is_Some (files s !! q) →
            is_Some (<[job_file_path_of E self variables := x]> (files s) !! q)).
  { intros x q Hq. rewrite lookup_insert_is_Some. destruct (decide
      (job_file_path_of E self variables = q)); [by left|by right]. }
  destruct submit_jobs;
    [|eexists; split; [reflexivity|]; simpl; by auto].
  destruct Hflags as [->|[=]].
  destruct (kubectl E _ _); (eexists; split; [reflexivity|]; simpl; by auto).
Qed.

Lemma for_enumerate_batch_keeps E self submit_jobs cleanup n (combos : list dict) i0
    (s : state) :
  cleanup = false ∨ submit_jobs = false →
  ∃ s', for_enumerate i0 combos (batch_body E self submit_jobs cleanup n) s
        = (Ok (), s') ∧
        ∀ q, is_Some (files s !! q) → is_Some (files s' !! q).
Proof.
  intros Hflags. revert i0 s. induction combos as [|c combos IH]; intros i0 s.
  - by exists s.
  - destruct (batch_body_keeps E self submit_jobs cleanup n i0 c s Hflags)
      as (s1 & Hrun1 & Hkeep1).
    destruct (IH (S i0) s1) as (s2 & Hrun2 & Hkeep2).
    exists s2. cbn [for_enumerate]. rewrite (bind_Ok _ _ _ _ _ Hrun1), Hrun2.
    split; [done|]. auto.
Qed.

(** A batch run without cleanup, or without submission, deletes nothing:
    every file that was there before the batch is there after it. *)
Theorem generate_and_submit_batch_keeps E self (combos : list dict)
    submit_jobs cleanup (s : state) :
  cleanup = false ∨ submit_jobs = false →
  ∀ q, is_Some (files s !! q) →
       is_Some
         (files (generate_and_submit_batch E self combos submit_jobs cleanup s).2
            !! q).
Proof.
  intros Hflags q Hq.
  destruct (for_enumerate_batch_keeps E self submit_jobs cleanup (length combos)
              combos 1 (emit [Generating (length combos)] (reset_counters s)) Hflags)
    as (s' & Hloop & Hkeep).
  rewrite (generate_and_submit_batch_run _ _ _ _ _ _ _ Hloop). by apply Hkeep.
Qed.

Lemma generate_and_submit_batch_keeps_witness :
  is_Some
    (files (generate_and_submit_batch example_env
              (Generator "template.yaml" "batch_job")
              [[("a", VInt 1)]] true false example_state).2 !! "template.yaml").
Proof.
  apply generate_and_submit_batch_keeps.
  - by left.
  - vm_compute. by eexists.
Defined.

(** A job that is generated, submitted with success and cleaned up leaves
    no document. *)
Lemma batch_body_cleaned E self n i (variables : dict) (s : state)
    template_content out :
  files s !! template_file self = Some (Text template_content) →
  writable E (job_file_path_of E self variables) = true →
  removable E (job_file_path_of E self variables) = true →
  kubectl E (length (kubectl_log s)) (job_file_path_of E self variables)
  = Completed out →
  ∃ s', batch_body E self true true n i variables s = (Ok (), s') ∧
        files s' = delete (job_file_path_of E self variables) (files s) ∧
        generated_files s'
        = generated_files s ++ [job_file_path_of E self variables] ∧
        successful_submissions s' = successful_submissions s + 1.
Proof.
  intros Ht Hw Hr Hk. rewrite batch_body_cases. cbn zeta.
  rewrite Ht, Hw, Hk, Hr. eexists. split; [reflexivity|]. simpl.
  by rewrite delete_insert_eq.
Qed.

Lemma for_enumerate_batch_cleaned E self n (combos : list dict) i0 (s : state)
    template_content :
  files s !! template_file self = Some (Text template_content) →
  (∀ c, c ∈ combos →
        writable E (job_file_path_of E self c) = true ∧
        removable E (job_file_path_of E self c) = true ∧
        job_file_path_of E self c ≠ template_file self) →
  (∀ run path, ∃ out, kubectl E run path = Completed out) →
  ∃ s', for_enumerate i0 combos (batch_body E self true true n) s = (Ok (), s') ∧
        (∀ c, c ∈ combos → files s' !! job_file_path_of E self c = None) ∧
        (∀ q, (∀ c, c ∈ combos → q ≠ job_file_path_of E self c) →
              files s' !! q = files s !! q) ∧
        generated_files s'
        = generated_files s ++ (job_file_path_of E self <$> combos) ∧
        successful_submissions s' = successful_submissions s + length combos.
Proof.
  intros Ht Hok Hk. revert i0 s Ht.
  induction combos as [|c combos IH]; intros i0 s Ht.
  - exists s. rewrite app_nil_r. split_and!; [done| |done|done|simpl; lia].
    by intros c ?%elem_of_nil.
  - destruct (Hok c) as (Hw & Hr & Hne); [left|].
    destruct (Hk (length (kubectl_log s)) (job_file_path_of E self c)) as [out Hout].
    destruct (batch_body_cleaned E self n i0 c s template_content out)
      as (s1 & Hrun1 & Hfiles1 & Hgen1 & Hsucc1); [done..|].
    destruct (IH (λ c' Hc', Hok c' (list_elem_of_further _ _ _ Hc')) (S i0) s1)
      as (s2 & Hrun2 & Hnone2 & Hframe2 & Hgen2 & Hsucc2).
    { rewrite Hfiles1. by rewrite lookup_delete_ne. }
    exists s2. cbn [for_enumerate]. rewrite (bind_Ok _ _ _ _ _ Hrun1), Hrun2.
    split_and!; [done| | |by rewrite Hgen2, Hgen1, <- app_assoc|simpl; lia].
    + intros c' [->|Hc']%elem_of_cons; [|by apply Hnone2].
      destruct (decide (job_file_path_of E self c
                        ∈ (job_file_path_of E self <$> combos))) as [Hin|Hnin].
      * apply list_elem_of_fmap in Hin as (c'' & Heq & Hc''). rewrite Heq.
        by apply Hnone2.
      * rewrite Hframe2, Hfiles1; [apply lookup_delete_eq|].
        intros c'' Hc'' Heq. apply Hnin. apply list_elem_of_fmap. eauto.
    + intros q Hq. rewrite Hframe2, Hfiles1.
      * apply lookup_delete_ne. intros Heq. by apply (Hq c); [left|].
      * intros c' Hc'. apply Hq. by right.
Qed.

(** When the template is readable and is none of the documents, every
    document can be written and removed, and the tool completes for every
    job, a batch with submission and cleanup generates and submits one
    document per combination and leaves none of them on disk; every other
    file is as before. *)
Theorem generate_and_submit_batch_cleans E self (combos : list dict) (s : state)
    template_content :
  files s !! template_file self = Some (Text template_content) →
  (∀ c, c ∈ combos →
        writable E (job_file_path_of E self c) = true ∧
        removable E (job_file_path_of E self c) = true ∧
        job_file_path_of E self c ≠ template_file self) →
  (∀ run path, ∃ out, kubectl E run path = Completed out) →
  (generate_and_submit_batch E self combos true true s).1
  = Ok (job_file_path_of E self <$> combos) ∧
  (∀ c, c ∈ combos →
        files (generate_and_submit_batch E self combos true true s).2
          !! job_file_path_of E self c = None) ∧
  (∀ q, (∀ c, c ∈ combos → q ≠ job_file_path_of E self c) →
        files (generate_and_submit_batch E self combos true true s).2 !! q
        = files s !! q) ∧
  successful_submissions (generate_and_submit_batch E self combos true true s).2
  = length combos.
Proof.
  intros Ht Hok Hk.
  destruct (for_enumerate_batch_cleaned E self (length combos) combos 1
              (emit [Generating (length combos)] (reset_counters s))
              template_content Ht Hok Hk)
    as (s' & Hloop & Hnone & Hframe & Hgen & Hsucc).
  rewrite (generate_and_submit_batch_run _ _ _ _ _ _ _ Hloop).
  simpl in *. by rewrite Hgen.
Qed.

Lemma generate_and_submit_batch_cleans_witness :
  files (generate_and_submit_batch empty_options_env
           (Generator "template.yaml" "batch_job")
           [[("a", VInt 1)]; [("a", VInt 2)]] true true example_state).2
    !! "batch_job/job_a_2.yaml" = None.
Proof.
  refine (proj1 (proj2 (generate_and_submit_batch_cleans empty_options_env
                          (Generator "template.yaml" "batch_job")
                          [[("a", VInt 1)]; [("a", VInt 2)]] example_state
                          "x=$(a) y=$(b)" _ _ _)) [("a", VInt 2)] _).
  - vm_compute. reflexivity.
  - intros c Hc. split_and!; [done|done|].
    repeat (apply elem_of_cons in Hc as [->|Hc]; [vm_compute; discriminate|]).
    by apply elem_of_nil in Hc.
  - intros run path. by eexists.
  - right. left.
Defined.

(** ** The enumerator and the substitution, further *)

Lemma product_app {A} (pools1 pools2 : list (list A)) :
  product (pools1 ++ pools2)
  = x ← product pools1; y ← product pools2; [x ++ y].
Proof.
  unfold product at 1. rewrite fold_left_app. fold (product pools1).
  rewrite fold_product_step. apply list_bind_ext; [|done].
  intros x. symmetry. apply bind_singleton_fmap.
Qed.

Lemma fmap_bind_list {A B C} (f : B → C) (g : A → list B) (l : list A) :
  f <$> (l ≫= g) = l ≫= λ x, f <$> g x.
Proof.
  induction l as [|x l IH]; [done|]. by rewrite !bind_cons, fmap_app, IH.
Qed.

(** The combinations of two mappings put one after the other are the pairs
    of a combination of the first and a combination of the second, the
    second varying fastest. *)
Theorem create_variable_combinations_app (options1 options2 : variable_options) :
  NoDup (options1 ++ options2).*1 →
  create_variable_combinations (options1 ++ options2)
  = c1 ← create_variable_combinations options1;
    c2 ← create_variable_combinations options2;
    [c1 ++ c2].
Proof.
  intros Hnd. pose proof Hnd as Hnd'. rewrite fmap_app in Hnd'.
  apply NoDup_app in Hnd' as (Hnd1 & _ & Hnd2).
  rewrite !create_variable_combinations_zip by done.
  rewrite !fmap_app, product_app, fmap_bind_list, list_fmap_bind.
  apply Forall_bind_ext, Forall_forall. intros x Hx. simpl.
  rewrite fmap_bind_list, list_fmap_bind. apply list_bind_ext; [|done].
  intros y. simpl. f_equal. apply zip_with_app.
  apply elem_of_product, Forall2_length in Hx. by rewrite Hx, !length_fmap.
Qed.

Lemma create_variable_combinations_app_witness :
  create_variable_combinations ([("a", [VInt 1; VInt 2])] ++ [("b", [VStr "p"])])
  = c1 ← create_variable_combinations [("a", [VInt 1; VInt 2])];
    c2 ← create_variable_combinations [("b", [VStr "p"])];
    [c1 ++ c2].
Proof.
  apply create_variable_combinations_app.
  apply (bool_decide_unpack _). vm_compute. exact I.
Defined.

Lemma dict_get_zip_None (names : list string) (xs : list value) k :
  k ∉ names → dict_get (zip names xs) k = None.
Proof.
  revert xs. induction names as [|k' names IH]; intros [|x xs] Hk; try done.
  apply not_elem_of_cons in Hk as [Hne Hk]. simpl.
  rewrite decide_False by done. by apply IH.
Qed.

(** With pairwise distinct keys, [get] finds exactly the items of the dict. *)
Lemma dict_get_Some_NoDup (d : dict) k v :
  NoDup d.*1 → dict_get d k = Some v ↔ (k, v) ∈ d.
Proof.
  induction d as [|[k' v'] d IH]; simpl.
  - intros _. split; [done|]. by intros ?%elem_of_nil.
  - intros [Hk' Hnd]%NoDup_cons. rewrite elem_of_cons. case_decide as Hk.
    + subst k'. split; [intros [= ->]; by left|].
      intros [[= ->]|Hin]; [done|]. destruct Hk'.
      apply list_elem_of_fmap. by exists (k, v).
    + rewrite IH by done. split; [by right|]. by intros [[= ? ?]|?].
Qed.

(** Every combination binds each variable of the options to one of its
    candidate values, and binds no other name. *)
Theorem create_variable_combinations_get (options : variable_options) (c : dict) :
  NoDup options.*1 →
  c ∈ create_variable_combinations options →
  (∀ k vs, (k, vs) ∈ options → ∃ v, dict_get c k = Some v ∧ v ∈ vs) ∧
  (∀ k, k ∉ options.*1 → dict_get c k = None).
Proof.
  intros Hnd. rewrite create_variable_combinations_zip by done.
  intros (xs & -> & Hxs%elem_of_product)%list_elem_of_fmap. split.
  - intros k vs [i Hi]%list_elem_of_lookup.
    assert (Hvs : options.*2 !! i = Some vs) by (by rewrite list_lookup_fmap, Hi).
    destruct (Forall2_lookup_r _ _ _ _ _ Hxs Hvs) as (v & Hv & Hin).
    exists v. split; [|done]. apply dict_get_Some_NoDup; [by apply NoDup_fst_zip|].
    apply list_elem_of_lookup. exists i. apply lookup_zip_with_Some.
    exists k, v. split_and!; [done| |done]. by rewrite list_lookup_fmap, Hi.
  - intros k Hk. by apply dict_get_zip_None.
Qed.

Lemma create_variable_combinations_get_witness :
  ∃ v, dict_get [("a", VInt 2); ("b", VStr "p")] "b" = Some v ∧
       v ∈ [VStr "p"; VStr "q"].
Proof.
  refine (proj1 (create_variable_combinations_get
                   [("a", [VInt 1; VInt 2]); ("b", [VStr "p"; VStr "q"])]
                   [("a", VInt 2); ("b", VStr "p")] _ _) "b" _ _).
  - apply (bool_decide_unpack _). vm_compute. exact I.
  - apply list_elem_of_lookup. by exists 2.
  - right. left.
Defined.

(** Where [$(] does not occur, no placeholder starts. *)
Lemma prefix_placeholder_open k (s : string) :
  String.prefix "$(" s = false → String.prefix (placeholder k) s = false.
Proof.
  rewrite placeholder_String. destruct s as [|c [|c' s]]; [done|..].
  - rewrite !prefix_String. by destruct (bool_decide ("$"%char = c)).
  - rewrite !prefix_String. destruct (bool_decide ("$"%char = c)); [|done].
    destruct (bool_decide ("("%char = c')); [|done]. simpl. by destruct s.
Qed.

Lemma replace_from_no_open k new (s : string) :
  str_contains s "$(" = false → replace_from (placeholder k) new 0 s = s.
Proof.
  induction s as [|c s IH]; [done|]. cbn [str_contains].
  intros [Hp Hs]%orb_false_elim.
  rewrite replace_from_keep by (by apply prefix_placeholder_open).
  by rewrite IH.
Qed.

(** A template in which [$(] does not occur is returned as it is, whatever
    the combination. *)
Theorem substitute_variables_no_placeholder (template_content : string)
    (variables : dict) :
  str_contains template_content "$(" = false →
  substitute_variables template_content variables = template_content.
Proof.
  intros Hno. unfold substitute_variables.
  induction variables as [|[k v] variables IH]; [done|].
  cbn [fold_left fst snd].
  by rewrite str_replace_placeholder, replace_from_no_open.
Qed.

Lemma substitute_variables_no_placeholder_witness :
  substitute_variables "cost: 5$ (a)" [("a", VInt 1)] = "cost: 5$ (a)".
Proof. apply substitute_variables_no_placeholder. reflexivity. Defined.

Lemma render_passes (segs : list segment) (variables : dict) :
  render (passes variables segs) = substitute_spec segs variables.
Proof.
  revert segs. induction variables as [|[k v] variables IH]; intros segs.
  - symmetry. apply substitute_spec_nil.
  - unfold passes. cbn [fold_left fst snd].
    fold (passes variables (pass_segment k (str v) <$> segs)).
    rewrite IH. apply substitute_spec_pass.
Qed.

Lemma dict_get_Permutation (d1 d2 : dict) k :
  NoDup d1.*1 → d1 ≡ₚ d2 → dict_get d1 k = dict_get d2 k.
Proof.
  intros Hnd Hperm. apply option_eq. intros v.
  rewrite !dict_get_Some_NoDup; [by rewrite Hperm|by rewrite <- Hperm|done].
Qed.

(** On a well-formed template, the order of the variables in the
    combination does not matter: two orders of one mapping give the same
    document. *)
Theorem substitute_variables_order (segs : list segment) (d1 d2 : dict) :
  Forall wf_segment segs → wf_variables d1 → NoDup d1.*1 → d1 ≡ₚ d2 →
  substitute_variables (render segs) d1 = substitute_variables (render segs) d2.
Proof.
  intros Hwf Hd1 Hnd Hperm.
  assert (Hd2 : wf_variables d2) by (unfold wf_variables; by rewrite <- Hperm).
  destruct (substitute_variables_render segs d1 Hwf Hd1) as [-> _].
  destruct (substitute_variables_render segs d2 Hwf Hd2) as [-> _].
  rewrite !render_passes. clear Hwf.
  induction segs as [|seg segs IH]; [done|].
  cbn [substitute_spec foldr]. fold (substitute_spec segs d1).
  fold (substitute_spec segs d2). rewrite IH. f_equal.
  destruct seg as [t|n]; [done|]. simpl.
  by rewrite (dict_get_Permutation d1 d2).
Qed.

Lemma substitute_variables_order_witness :
  substitute_variables "x=$(a) y=$(b)" [("a", VInt 1); ("b", VStr "p")]
  = substitute_variables "x=$(a) y=$(b)" [("b", VStr "p"); ("a", VInt 1)].
Proof.
  apply (substitute_variables_order [Lit "x="; Ph "a"; Lit " y="; Ph "b"]
           [("a", VInt 1); ("b", VStr "p")] [("b", VStr "p"); ("a", VInt 1)]).
  - repeat constructor.
  - repeat constructor.
  - apply (bool_decide_unpack _). vm_compute. exact I.
  - apply perm_swap.
Defined.

(** ** The command line, further *)

(** With [--no-submit] the program never runs the submission tool and
    deletes no file, whatever else happens. *)
Theorem script_no_submit E (a : args) (s : state) :
  arg_no_submit a = true →
  kubectl_log (script E a s).2 = kubectl_log s ∧
  ∀ q, is_Some (files s !! q) → is_Some (files (script E a s).2 !! q).
Proof.
  intros Hns.
  destruct (variable_options_loaded E a s) as [options|] eqn:Hload.
  - destruct (arg_dry_run a) eqn:Hdry.
    + by rewrite (script_dry_run E a s options).
    + pose proof (main_batch E a (emit [Here] s) options Hload Hdry) as Hrun.
      rewrite script_run.
      destruct (output_dir_ready E a (emit [Here] s)); [|by rewrite Hrun].
      destruct Hrun as (s0 & s1 & Hf & Hk & Hloop & events & ->).
      rewrite Hns in Hloop. cbn [negb] in Hloop.
      destruct (for_enumerate_batch_runs E
                  (Generator (arg_template_file a) (arg_output_dir a))
                  false (arg_cleanup a)
                  (length (create_variable_combinations options))
                  (create_variable_combinations options) 1
                  (emit [Generating (length (create_variable_combinations options))]
                     (reset_counters s0)))
        as (s1' & new & Hloop' & _ & Hlog & _).
      destruct (for_enumerate_batch_keeps E
                  (Generator (arg_template_file a) (arg_output_dir a))
                  false (arg_cleanup a)
                  (length (create_variable_combinations options))
                  (create_variable_combinations options) 1
                  (emit [Generating (length (create_variable_combinations options))]
                     (reset_counters s0)) (or_intror eq_refl))
        as (s1'' & Hloop'' & Hkeep).
      rewrite Hloop in Hloop', Hloop''.
      injection Hloop' as <-. injection Hloop'' as <-.
      simpl in *. rewrite app_nil_r in Hlog. split; [congruence|].
      intros q Hq. apply Hkeep. by rewrite Hf.
  - destruct (main_load_failure E a (emit [Here] s) Hload)
      as (e & events & Hrun & _).
    by rewrite script_run, Hrun.
Qed.

Lemma script_no_submit_witness :
  kubectl_log
    (script example_env
       (Args "template.yaml" "variables.yaml" "batch_job" true false false)
       example_state).2 = [].
Proof.
  exact (proj1 (script_no_submit example_env
                  (Args "template.yaml" "variables.yaml" "batch_job" true false false)
                  example_state eq_refl)).
Defined.
